(** * Kinematic truck controller and orbit camera rig

    A shallow embedding of [js/TruckController.js], [js/CameraController.js]
    and the two methods of [js/models/Truck.js] they call, followed by the
    properties the design document states about them.

    Numbers.  A JavaScript number is modelled as a real number: [+], [-],
    [*], [/], [Math.abs], [Math.min], [Math.max], [Math.sin] and [Math.cos]
    are the exact operations of [R].  Rounding, infinities and NaN of the
    binary64 format are outside this model; where they decide a property,
    the speed and the heading are also computed on binary64 numbers in
    [Module Binary64]: the two pedal scenarios of the design document, which
    name exact values, the steering of [update], and coasting, whose decay
    stalls above 0 there.

    Objects.  A class becomes a record holding the fields its constructor
    assigns, a method becomes a function from the record to the updated
    record.  Event listeners become functions indexed by an event type; the
    browser delivering events and the frame driver calling [update] become a
    list of actions folded over the record. *)

From Stdlib Require Import Reals Lra Lia List String Ascii Bool ZArith NArith.
From Stdlib Require Floats.
Import ListNotations.

Local Open Scope R_scope.

(** ** three.js: the parts of [THREE.MathUtils] and [THREE.Vector3] in use *)

Module MathUtils.

(** [clamp(value, min, max)] is [Math.max(min, Math.min(max, value))]. *)
Definition clamp (value min max : R) : R := Rmax min (Rmin max value).

End MathUtils.

Module Vector3.

Record t : Type := mk { x : R; y : R; z : R }.

(** [v.set(x, y, z)] *)
Definition set (x0 y0 z0 : R) (_ : t) : t := mk x0 y0 z0.

(** [v.clone()] and [v.copy(w)]: a fresh vector with the same components. *)
Definition clone (v : t) : t := mk (x v) (y v) (z v).
Definition copy (w : t) (_ : t) : t := mk (x w) (y w) (z w).

(** [v.add(w)]: component-wise sum, stored in [v]. *)
Definition add (w : t) (v : t) : t :=
  mk (x v + x w) (y v + y w) (z v + z w).

(** [v.lerp(w, alpha)]: each component moves by [(w.c - v.c) * alpha]. *)
Definition lerp (w : t) (alpha : R) (v : t) : t :=
  mk (x v + (x w - x v) * alpha)
     (y v + (y w - y v) * alpha)
     (z v + (z w - z v) * alpha).

(** Field assignments [v.x = a], [v.y = a], [v.z = a]. *)
Definition set_x (a : R) (v : t) : t := mk a (y v) (z v).
Definition set_y (a : R) (v : t) : t := mk (x v) a (z v).
Definition set_z (a : R) (v : t) : t := mk (x v) (y v) a.

(** [v.distanceToSquared(w)] and [v.distanceTo(w)]. *)
Definition distanceToSquared (w : t) (v : t) : R :=
  (x v - x w) * (x v - x w) + (y v - y w) * (y v - y w)
  + (z v - z w) * (z v - z w).
Definition distanceTo (w : t) (v : t) : R := sqrt (distanceToSquared w v).

End Vector3.

(** ** js/models/Truck.js: the mesh the controller writes to *)

Module Truck.

(** [group.position], [group.rotation.y] and, for each wheel group, the
    angle accumulated about its local X axis by [rotateX]. *)
Record t : Type := mk {
  group_position : Vector3.t;
  group_rotation_y : R;
  wheels : list R
}.

(** The constructor leaves the group at the origin, unrotated, with four
    wheel groups that have not turned yet. *)
Definition constructor : t := mk (Vector3.mk 0 0 0) 0 [0; 0; 0; 0].

Definition updateWheels (speed : R) (tr : t) : t :=
  let rotationSpeed := speed * 2.0 in
  mk (group_position tr) (group_rotation_y tr)
     (map (fun wheelGroup => wheelGroup + rotationSpeed) (wheels tr)).

Definition update (position : Vector3.t) (rotation : R) (tr : t) : t :=
  mk (Vector3.copy position (group_position tr)) rotation (wheels tr).

End Truck.

(** ** js/TruckController.js *)

Module TruckController.

(** The four property names of [this.controls]. *)
Inductive ControlName : Type := Gas | Brake | Left | Right.

Definition ControlName_eqb (a b : ControlName) : bool :=
  match a, b with
  | Gas, Gas | Brake, Brake | Left, Left | Right, Right => true
  | _, _ => false
  end.

Record Controls : Type := mkControls {
  gas : bool;
  brake : bool;
  left : bool;
  right : bool
}.

(** [controls[controlName]] and [controls[controlName] = v]. *)
Definition get (n : ControlName) (c : Controls) : bool :=
  match n with
  | Gas => gas c
  | Brake => brake c
  | Left => left c
  | Right => right c
  end.

Definition set (n : ControlName) (v : bool) (c : Controls) : Controls :=
  match n with
  | Gas => mkControls v (brake c) (left c) (right c)
  | Brake => mkControls (gas c) v (left c) (right c)
  | Left => mkControls (gas c) (brake c) v (right c)
  | Right => mkControls (gas c) (brake c) (left c) v
  end.

Definition released : Controls := mkControls false false false false.

Record t : Type := mk {
  truck : Truck.t;
  position : Vector3.t;
  velocity : Vector3.t;
  rotation : R;
  speed : R;
  maxSpeed : R;
  acceleration : R;
  braking : R;
  friction : R;
  turnSpeed : R;
  controls : Controls
}.

Definition constructor (truck0 : Truck.t) : t :=
  {| truck := truck0;
     position := Vector3.mk 0 0 0;
     velocity := Vector3.mk 0 0 0;
     rotation := 0;
     speed := 0;
     maxSpeed := 0.5;
     acceleration := 0.01;
     braking := 0.02;
     friction := 0.98;
     turnSpeed := 0.03;
     controls := released |}.

Definition with_controls (c : Controls) (s : t) : t :=
  {| truck := truck s; position := position s; velocity := velocity s;
     rotation := rotation s; speed := speed s; maxSpeed := maxSpeed s;
     acceleration := acceleration s; braking := braking s;
     friction := friction s; turnSpeed := turnSpeed s; controls := c |}.

(** *** Input: keyboard and button listeners *)

(** The two properties of a [KeyboardEvent] the listeners read. *)
Record KeyboardEvent : Type := mkKey { key : string; code : string }.

(** [String.prototype.toLowerCase] on the ASCII letters. *)
Definition lower_ascii (c : ascii) : ascii :=
  let n := nat_of_ascii c in
  if (Nat.leb 65 n && Nat.leb n 90)%bool then ascii_of_nat (n + 32) else c.

Fixpoint toLowerCase (s : string) : string :=
  match s with
  | EmptyString => EmptyString
  | String c r => String (lower_ascii c) (toLowerCase r)
  end.

(** The [if / else if] chain shared by the [keydown] and [keyup]
    listeners: the property of [this.controls] the event writes, if any. *)
Definition key_control (e : KeyboardEvent) : option ControlName :=
  let key := toLowerCase (key e) in
  let code := code e in
  if (String.eqb key "arrowup" || String.eqb code "KeyW")%bool then Some Gas
  else if (String.eqb key "arrowdown" || String.eqb code "KeyS")%bool
  then Some Brake
  else if (String.eqb key "arrowleft" || String.eqb code "KeyA")%bool
  then Some Left
  else if (String.eqb key "arrowright" || String.eqb code "KeyD")%bool
  then Some Right
  else None.

Definition keydown (e : KeyboardEvent) (c : Controls) : Controls :=
  match key_control e with
  | Some n => set n true c
  | None => c
  end.

Definition keyup (e : KeyboardEvent) (c : Controls) : Controls :=
  match key_control e with
  | Some n => set n false c
  | None => c
  end.

(** The events a listener is registered for.  A button event carries the
    [controlName] its listener was registered with by [addButtonListeners];
    a button missing from the document has no listener and so no event. *)
Inductive Event : Type :=
| KeyDown (e : KeyboardEvent)
| KeyUp (e : KeyboardEvent)
| TouchStart (controlName : ControlName)
| TouchEnd (controlName : ControlName)
| MouseDown (controlName : ControlName)
| MouseUp (controlName : ControlName)
| MouseLeave (controlName : ControlName).

Definition handle (ev : Event) (c : Controls) : Controls :=
  match ev with
  | KeyDown e => keydown e c
  | KeyUp e => keyup e c
  | TouchStart n => set n true c
  | TouchEnd n => set n false c
  | MouseDown n => set n true c
  | MouseUp n => set n false c
  | MouseLeave n => set n false c
  end.

(** The listeners run in arrival order, each on the controls the previous
    one left. *)
Definition latch (events : list Event) (c : Controls) : Controls :=
  fold_left (fun c ev => handle ev c) events c.

(** *** Physics: [update(deltaTime)] *)

Definition update (deltaTime : R) (s : t) : t :=
  let c := controls s in
  let speed1 :=
    if gas c then speed s + acceleration s
    else if brake c then speed s - braking s
    else speed s * friction s in
  let speed2 := MathUtils.clamp speed1 (- maxSpeed s * 0.5) (maxSpeed s) in
  let rotation1 :=
    if Rlt_dec 0.01 (Rabs speed2) then
      let turnDirection := if Rlt_dec 0 speed2 then 1 else -1 in
      let r1 :=
        if left c
        then rotation s
             + turnSpeed s * Rabs speed2 / maxSpeed s * turnDirection
        else rotation s in
      if right c
      then r1 - turnSpeed s * Rabs speed2 / maxSpeed s * turnDirection
      else r1
    else rotation s in
  let velocity1 :=
    Vector3.set_z (cos rotation1 * speed2)
      (Vector3.set_x (sin rotation1 * speed2) (velocity s)) in
  let position1 := Vector3.add velocity1 (position s) in
  let position2 :=
    Vector3.set_x (MathUtils.clamp (Vector3.x position1) (-3) 3) position1 in
  let truck1 := Truck.update position2 rotation1 (truck s) in
  let truck2 := Truck.updateWheels speed2 truck1 in
  {| truck := truck2; position := position2; velocity := velocity1;
     rotation := rotation1; speed := speed2; maxSpeed := maxSpeed s;
     acceleration := acceleration s; braking := braking s;
     friction := friction s; turnSpeed := turnSpeed s; controls := c |}.

Definition getPosition (s : t) : Vector3.t := Vector3.clone (position s).
Definition getSpeed (s : t) : R := speed s.
Definition getRotation (s : t) : R := rotation s.

Definition reset (s : t) : t :=
  {| truck := truck s;
     position := Vector3.set 0 0 0 (position s);
     velocity := Vector3.set 0 0 0 (velocity s);
     rotation := 0; speed := 0; maxSpeed := maxSpeed s;
     acceleration := acceleration s; braking := braking s;
     friction := friction s; turnSpeed := turnSpeed s;
     controls := released |}.

(** *** Runs of the controller *)

(** What can happen to a controller between two frames: a listener runs,
    the frame driver calls [update], or the game calls [reset]. *)
Inductive Action : Type :=
| Input (ev : Event)
| Tick (deltaTime : R)
| Restart.

Definition step (a : Action) (s : t) : t :=
  match a with
  | Input ev => with_controls (handle ev (controls s)) s
  | Tick deltaTime => update deltaTime s
  | Restart => reset s
  end.

Definition run (actions : list Action) (s : t) : t :=
  fold_left (fun s a => step a s) actions s.

(** The states a controller can be in: built by the constructor, then
    driven by any number of actions. *)
Inductive reachable : t -> Prop :=
| reachable_constructor truck0 : reachable (constructor truck0)
| reachable_step a s : reachable s -> reachable (step a s).

(** [n] frames in a row with the controls held as they are. *)
Fixpoint ticks (n : nat) (deltaTime : R) (s : t) : t :=
  match n with
  | O => s
  | S k => update deltaTime (ticks k deltaTime s)
  end.

(** *** Vocabulary of the properties *)

(** The tuning constants are assigned by the constructor only. *)
Definition tuned (s : t) : Prop :=
  maxSpeed s = 0.5 /\ acceleration s = 0.01 /\ braking s = 0.02
  /\ friction s = 0.98 /\ turnSpeed s = 0.03.

(** A fresh controller on which one button has just been pressed. *)
Definition holding (n : ControlName) (truck0 : Truck.t) : t :=
  step (Input (TouchStart n)) (constructor truck0).

(** The steering input the two steer flags add up to. *)
Definition steerInput (c : Controls) : R :=
  (if left c then 1 else 0) - (if right c then 1 else 0).

(** [Math.sign]. *)
Definition sign (v : R) : R :=
  if Rlt_dec 0 v then 1 else if Rlt_dec v 0 then -1 else 0.

(** On the ground plane: no height, no vertical velocity. *)
Definition grounded (s : t) : Prop :=
  Vector3.y (position s) = 0 /\ Vector3.y (velocity s) = 0.

(** Inside the lane. *)
Definition in_lane (s : t) : Prop := -3 <= Vector3.x (position s) <= 3.

(** The velocity is the speed along the heading. *)
Definition velocity_along_heading (s : t) : Prop :=
  Vector3.x (velocity s) = sin (rotation s) * speed s
  /\ Vector3.z (velocity s) = cos (rotation s) * speed s.

(** The four parts of the vehicle state [update] advances. *)
Definition same_vehicle_state (s1 s2 : t) : Prop :=
  position s1 = position s2 /\ rotation s1 = rotation s2
  /\ speed s1 = speed s2 /\ velocity s1 = velocity s2.

End TruckController.

(** ** js/CameraController.js *)

Module CameraController.

(** The camera object: its [position] and the point the last [lookAt]
    aimed it at (the orientation three.js derives from the two). *)
Record Camera : Type := mkCamera {
  cam_position : Vector3.t;
  cam_lookAt : Vector3.t
}.

Record t : Type := mk {
  camera : Camera;
  distance : R;
  height : R;
  angleH : R;
  angleV : R;
  minAngleV : R;
  maxAngleV : R;
  sensitivity : R;
  isRotating : bool;
  lastX : R;
  lastY : R;
  touchStartX : R;
  touchStartY : R;
  isTouchRotating : bool
}.

Definition constructor (camera0 : Camera) : t :=
  {| camera := camera0;
     distance := 15;
     height := 8;
     angleH := 0;
     angleV := 0.3;
     minAngleV := 0.1;
     maxAngleV := PI / 3;
     sensitivity := 0.003;
     isRotating := false;
     lastX := 0;
     lastY := 0;
     touchStartX := 0;
     touchStartY := 0;
     isTouchRotating := false |}.

(** *** Input: the listeners on the canvas and the window *)

Record Touch : Type := mkTouch { clientX : R; clientY : R }.

Inductive Event : Type :=
| MouseDown (button : Z) (clientX clientY : R)
| MouseMove (clientX clientY : R)
| MouseUp (button : Z)
| ContextMenu
| TouchStart (touches : list Touch)
| TouchMove (touches : list Touch)
| TouchEnd (touches : list Touch)
| Wheel (deltaY : R).

Definition mousedown (button : Z) (cx cy : R) (s : t) : t :=
  if Z.eqb button 2 then
    {| camera := camera s; distance := distance s; height := height s;
       angleH := angleH s; angleV := angleV s; minAngleV := minAngleV s;
       maxAngleV := maxAngleV s; sensitivity := sensitivity s;
       isRotating := true; lastX := cx; lastY := cy;
       touchStartX := touchStartX s; touchStartY := touchStartY s;
       isTouchRotating := isTouchRotating s |}
  else s.

Definition mousemove (cx cy : R) (s : t) : t :=
  if isRotating s then
    let deltaX := cx - lastX s in
    let deltaY := cy - lastY s in
    let angleH1 := angleH s - deltaX * sensitivity s in
    let angleV1 := angleV s + deltaY * sensitivity s in
    let angleV2 := Rmax (minAngleV s) (Rmin (maxAngleV s) angleV1) in
    {| camera := camera s; distance := distance s; height := height s;
       angleH := angleH1; angleV := angleV2; minAngleV := minAngleV s;
       maxAngleV := maxAngleV s; sensitivity := sensitivity s;
       isRotating := isRotating s; lastX := cx; lastY := cy;
       touchStartX := touchStartX s; touchStartY := touchStartY s;
       isTouchRotating := isTouchRotating s |}
  else s.

Definition mouseup (button : Z) (s : t) : t :=
  if Z.eqb button 2 then
    {| camera := camera s; distance := distance s; height := height s;
       angleH := angleH s; angleV := angleV s; minAngleV := minAngleV s;
       maxAngleV := maxAngleV s; sensitivity := sensitivity s;
       isRotating := false; lastX := lastX s; lastY := lastY s;
       touchStartX := touchStartX s; touchStartY := touchStartY s;
       isTouchRotating := isTouchRotating s |}
  else s.

Definition touchstart (touches : list Touch) (s : t) : t :=
  match touches with
  | touch :: _ =>
    if Nat.eqb (List.length touches) 2 then
      {| camera := camera s; distance := distance s; height := height s;
         angleH := angleH s; angleV := angleV s; minAngleV := minAngleV s;
         maxAngleV := maxAngleV s; sensitivity := sensitivity s;
         isRotating := isRotating s; lastX := lastX s; lastY := lastY s;
         touchStartX := clientX touch; touchStartY := clientY touch;
         isTouchRotating := true |}
    else s
  | [] => s
  end.

Definition touchmove (touches : list Touch) (s : t) : t :=
  match touches with
  | touch :: _ =>
    if (isTouchRotating s && Nat.eqb (List.length touches) 2)%bool then
      let deltaX := clientX touch - touchStartX s in
      let deltaY := clientY touch - touchStartY s in
      let angleH1 := angleH s - deltaX * sensitivity s in
      let angleV1 := angleV s + deltaY * sensitivity s in
      let angleV2 := Rmax (minAngleV s) (Rmin (maxAngleV s) angleV1) in
      {| camera := camera s; distance := distance s; height := height s;
         angleH := angleH1; angleV := angleV2; minAngleV := minAngleV s;
         maxAngleV := maxAngleV s; sensitivity := sensitivity s;
         isRotating := isRotating s; lastX := lastX s; lastY := lastY s;
         touchStartX := clientX touch; touchStartY := clientY touch;
         isTouchRotating := isTouchRotating s |}
    else s
  | [] => s
  end.

Definition touchend (touches : list Touch) (s : t) : t :=
  if Nat.ltb (List.length touches) 2 then
    {| camera := camera s; distance := distance s; height := height s;
       angleH := angleH s; angleV := angleV s; minAngleV := minAngleV s;
       maxAngleV := maxAngleV s; sensitivity := sensitivity s;
       isRotating := isRotating s; lastX := lastX s; lastY := lastY s;
       touchStartX := touchStartX s; touchStartY := touchStartY s;
       isTouchRotating := false |}
  else s.

Definition wheel (deltaY : R) (s : t) : t :=
  let distance1 := distance s + deltaY * 0.01 in
  let distance2 := Rmax 5 (Rmin 30 distance1) in
  {| camera := camera s; distance := distance2; height := height s;
     angleH := angleH s; angleV := angleV s; minAngleV := minAngleV s;
     maxAngleV := maxAngleV s; sensitivity := sensitivity s;
     isRotating := isRotating s; lastX := lastX s; lastY := lastY s;
     touchStartX := touchStartX s; touchStartY := touchStartY s;
     isTouchRotating := isTouchRotating s |}.

Definition handle (ev : Event) (s : t) : t :=
  match ev with
  | MouseDown button cx cy => mousedown button cx cy s
  | MouseMove cx cy => mousemove cx cy s
  | MouseUp button => mouseup button s
  | ContextMenu => s
  | TouchStart touches => touchstart touches s
  | TouchMove touches => touchmove touches s
  | TouchEnd touches => touchend touches s
  | Wheel deltaY => wheel deltaY s
  end.

(** *** [update(targetPosition, targetRotation)] *)

(** The point the camera is heading for: [targetCameraPos]. *)
Definition targetCameraPos
    (targetPosition : Vector3.t) (targetRotation : R) (s : t) : Vector3.t :=
  let totalAngle := targetRotation + angleH s in
  let offsetX := sin totalAngle * distance s * cos (angleV s) in
  let offsetZ := cos totalAngle * distance s * cos (angleV s) in
  let offsetY := distance s * sin (angleV s) in
  let p0 := Vector3.clone targetPosition in
  let p1 := Vector3.set_x (Vector3.x p0 - offsetX) p0 in
  let p2 := Vector3.set_z (Vector3.z p1 - offsetZ) p1 in
  Vector3.set_y (Vector3.y p2 + offsetY) p2.

Definition update
    (targetPosition : Vector3.t) (targetRotation : R) (s : t) : t :=
  let target := targetCameraPos targetPosition targetRotation s in
  let position1 := Vector3.lerp target 0.1 (cam_position (camera s)) in
  let lookAtPos0 := Vector3.clone targetPosition in
  let lookAtPos := Vector3.set_y (Vector3.y lookAtPos0 + 1) lookAtPos0 in
  {| camera := mkCamera position1 lookAtPos;
     distance := distance s; height := height s;
     angleH := angleH s; angleV := angleV s; minAngleV := minAngleV s;
     maxAngleV := maxAngleV s; sensitivity := sensitivity s;
     isRotating := isRotating s; lastX := lastX s; lastY := lastY s;
     touchStartX := touchStartX s; touchStartY := touchStartY s;
     isTouchRotating := isTouchRotating s |}.

Definition reset (s : t) : t :=
  {| camera := camera s; distance := distance s; height := height s;
     angleH := 0; angleV := 0.3; minAngleV := minAngleV s;
     maxAngleV := maxAngleV s; sensitivity := sensitivity s;
     isRotating := isRotating s; lastX := lastX s; lastY := lastY s;
     touchStartX := touchStartX s; touchStartY := touchStartY s;
     isTouchRotating := isTouchRotating s |}.

(** *** Runs of the rig *)

Inductive Action : Type :=
| Input (ev : Event)
| Follow (targetPosition : Vector3.t) (targetRotation : R)
| Recentre.

Definition step (a : Action) (s : t) : t :=
  match a with
  | Input ev => handle ev s
  | Follow targetPosition targetRotation =>
    update targetPosition targetRotation s
  | Recentre => reset s
  end.

Definition run (actions : list Action) (s : t) : t :=
  fold_left (fun s a => step a s) actions s.

Inductive reachable : t -> Prop :=
| reachable_constructor camera0 : reachable (constructor camera0)
| reachable_step a s : reachable s -> reachable (step a s).

(** The camera the game hands to the rig: placed at [(0, 8, 15)] and
    aimed at the origin. *)
Definition game_camera : Camera :=
  mkCamera (Vector3.mk 0 8 15) (Vector3.mk 0 0 0).

End CameraController.

(** ** Input sources, as the design document describes them *)

Module InputSources.

Import TruckController.

(** The design document speaks of the sources bound to an intent: a
    keyboard key, a touch button, a mouse button on a control.  A keyboard
    source is identified by the [key] and [code] its events carry, a button
    source by the control the button was registered for. *)
Inductive Source : Type :=
| Key (e : KeyboardEvent)
| TouchButton (controlName : ControlName)
| MouseButton (controlName : ControlName).



(** The intent a source is bound to. *)
Definition bound (src : Source) : option ControlName :=
  match src with
  | Key e => key_control e
  | TouchButton n => Some n
  | MouseButton n => Some n
  end.

(** The source an event comes from, and whether the event leaves that
    source active (pressed) or inactive (released, or left by the
    pointer). *)
Definition source_of (ev : Event) : Source * bool :=
  match ev with
  | KeyDown e => (Key e, true)
  | KeyUp e => (Key e, false)
  | TouchStart n => (TouchButton n, true)
  | TouchEnd n => (TouchButton n, false)
  | MouseDown n => (MouseButton n, true)
  | MouseUp n => (MouseButton n, false)
  | MouseLeave n => (MouseButton n, false)
  end.



End InputSources.

(** ** The longitudinal step on binary64 numbers *)

Module Binary64.

Import Floats.
Local Open Scope float_scope.

(** [Math.min] and [Math.max] of two numbers: NaN if either is NaN, and
    [-0] counts as smaller than [+0]. *)
Definition min (a b : float) : float :=
  if (is_nan a || is_nan b)%bool then nan
  else if a <? b then a
  else if b <? a then b
  else if get_sign a then a else b.

Definition max (a b : float) : float :=
  if (is_nan a || is_nan b)%bool then nan
  else if a <? b then b
  else if b <? a then a
  else if get_sign a then b else a.

Definition clamp (value lo hi : float) : float := max lo (min hi value).

#[warnings="-inexact-float"]
Definition maxSpeed : float := 0.5.
#[warnings="-inexact-float"]
Definition acceleration : float := 0.01.
#[warnings="-inexact-float"]
Definition braking : float := 0.02.
#[warnings="-inexact-float"]
Definition friction : float := 0.98.

(** The constructor's [this.speed = 0]. *)
Definition rest : float := 0.

(** Lines 127 to 137 of [update]: the new [this.speed]. *)
Definition update_speed (gas brake : bool) (speed : float) : float :=
  let speed1 :=
    if gas then speed + acceleration
    else if brake then speed - braking
    else speed * friction in
  clamp speed1 (- maxSpeed * 0.5) maxSpeed.

Fixpoint ticks (n : nat) (gas brake : bool) (speed : float) : float :=
  match n with
  | O => speed
  | S k => update_speed gas brake (ticks k gas brake speed)
  end.

(** The reverse limit [-maxSpeed * 0.5] and the test
    [-maxSpeed * 0.5 <= speed && speed <= maxSpeed]. *)
Definition reverse_limit : float := - maxSpeed * 0.5.

Definition within_limits (speed : float) : bool :=
  ((reverse_limit <=? speed) && (speed <=? maxSpeed))%bool.

#[warnings="-inexact-float"]
Definition turnSpeed : float := 0.03.

(** Line 140: [Math.abs(this.speed) > 0.01], on the speed just stored. *)
#[warnings="-inexact-float"]
Definition steering_open (speed : float) : bool := 0.01 <? abs speed.

(** Lines 141, 144 and 147: the amount
    [this.turnSpeed * Math.abs(this.speed) / this.maxSpeed * turnDirection]
    the two steer branches add and subtract. *)
Definition turn (speed : float) : float :=
  let turnDirection := if 0 <? speed then 1 else -1 in
  turnSpeed * abs speed / maxSpeed * turnDirection.

(** Lines 140 to 149 of [update]: the new [this.rotation], given the speed
    just stored. *)
Definition update_rotation (left right : bool) (speed rotation : float)
  : float :=
  if steering_open speed then
    let rotation1 := if left then rotation + turn speed else rotation in
    if right then rotation1 - turn speed else rotation1
  else rotation.

(** Speed and heading of the controller on binary64 numbers.  The
    position, which needs [Math.sin] and [Math.cos], is not part of this
    replay. *)
Record Vehicle : Type := mkVehicle { v_speed : float; v_rotation : float }.

Definition fresh : Vehicle := mkVehicle rest 0.

(** Lines 127 to 149 of [update] under the controls [c]. *)
Definition update (c : TruckController.Controls) (v : Vehicle) : Vehicle :=
  let speed1 :=
    update_speed (TruckController.gas c) (TruckController.brake c)
                 (v_speed v) in
  mkVehicle speed1
    (update_rotation (TruckController.left c) (TruckController.right c)
                     speed1 (v_rotation v)).

(** One frame for each entry of the list, under the controls it names. *)
Definition run (frames : list TruckController.Controls) (v : Vehicle)
  : Vehicle :=
  fold_left (fun v c => update c v) frames v.

(** *** Checking a coasting run frame by frame *)

(** What one frame of coasting may do to the speed: leave its magnitude
    or lower it, and keep it on its side of 0. *)
Definition coasts_well (before after : float) : bool :=
  ((abs after <=? abs before)
   && Bool.eqb (0 <? before) (0 <? after)
   && Bool.eqb (before <? 0) (after <? 0))%bool.

(** The speed after one more frame with gas and brake released, and
    whether every frame so far has coasted well. *)
Definition check_frame (p : float * bool) : float * bool :=
  let after := update_speed false false (fst p) in
  (after, (snd p && coasts_well (fst p) after)%bool).

Definition checked_coasting (frames : N) (speed : float) : float * bool :=
  N.iter frames check_frame (speed, true).

(** The subnormal number [3 * 2 ^ -1071], about [1.19e-322]. *)
Definition stalled : float := 0x3p-1071.

End Binary64.


(** ** Poses and distances used by the further properties *)

Module Poses.

Import TruckController.

(** The mesh shows the pose the controller holds. *)
Definition mesh_in_sync (s : t) : Prop :=
  Truck.group_position (truck s) = position s
  /\ Truck.group_rotation_y (truck s) = rotation s.

(** Standing at the origin, facing forward. *)
Definition parked_at_origin (s : t) : Prop :=
  position s = Vector3.mk 0 0 0 /\ rotation s = 0 /\ speed s = 0.

(** [v.lengthSq()]. *)
Definition lengthSq (v : Vector3.t) : R :=
  Vector3.x v * Vector3.x v + Vector3.y v * Vector3.y v
  + Vector3.z v * Vector3.z v.

End Poses.

(** ** Event sequences *)

Module Traces.

(** The polarity of the last event in [events] that is bound to control
    [n], if there is one. *)
Definition last_write
    (n : TruckController.ControlName) (events : list TruckController.Event)
  : option bool :=
  fold_left
    (fun acc ev =>
       match InputSources.bound (fst (InputSources.source_of ev)) with
       | Some m =>
         if TruckController.ControlName_eqb m n
         then Some (snd (InputSources.source_of ev)) else acc
       | None => acc
       end)
    events None.

(** A run of [mousemove] events, each given by its [clientX] and
    [clientY]. *)
Definition drag (moves : list (R * R)) (s : CameraController.t)
  : CameraController.t :=
  fold_left (fun s p => CameraController.mousemove (fst p) (snd p) s) moves s.

End Traces.

(** ** JavaScript objects used as settings *)

Module JS.

Inductive Value : Type :=
| Num (r : R)
| Bool (b : bool)
| Str (s : string).

(** An object literal: its properties in the order they are written. *)
Definition Object : Type := list (string * Value).

(** [o.name]: [None] stands for [undefined]. *)
Fixpoint get (name : string) (o : Object) : option Value :=
  match o with
  | [] => None
  | (k, v) :: rest => if String.eqb k name then Some v else get name rest
  end.

(** Truthiness of a property that may be missing. *)
Definition truthy (v : option Value) : bool :=
  match v with
  | Some (Bool b) => b
  | Some (Num r) => if Req_dec_T r 0 then false else true
  | Some (Str s) => negb (String.eqb s "")
  | None => false
  end.

End JS.

(** ** js/PerformanceManager.js *)

Module PerformanceManager.

(** What [detectPerformance] and [applySettings] take from the browser.
    [telegram_performance_class] is
    [window.Telegram.WebApp.initDataUnsafe.device.performance_class], [None]
    when a link of that chain is missing; [deviceMemory] is
    [navigator.deviceMemory], [None] when the browser does not provide it;
    [toUpperCase] is the engine's [String.prototype.toUpperCase], which
    follows the Unicode case mapping: beyond the letters a-z it also maps,
    for one, the dotless i (U+0131) to [I]. *)
Record Browser : Type := mkBrowser {
  telegram_performance_class : option string;
  userAgent : string;
  deviceMemory : option R;
  devicePixelRatio : R;
  toUpperCase : string -> string
}.

Record t : Type := mk {
  performanceClass : string;
  settings : JS.Object
}.

(** The case folding of a regular expression with the [i] flag: the
    letters a-z are compared as A-Z, and a character outside ASCII is never
    taken for an ASCII one. *)
Definition upper_ascii (c : ascii) : ascii :=
  let n := nat_of_ascii c in
  if (Nat.leb 97 n && Nat.leb n 122)%bool then ascii_of_nat (n - 32) else c.

Fixpoint canonicalize (s : string) : string :=
  match s with
  | EmptyString => EmptyString
  | String c r => String (upper_ascii c) (canonicalize r)
  end.

(** Whether a string holds ASCII characters only. *)
Fixpoint ascii_only (s : string) : bool :=
  match s with
  | EmptyString => true
  | String c r => (Nat.ltb (nat_of_ascii c) 128 && ascii_only r)%bool
  end.

(** On a string of ASCII characters the Unicode case mapping comes down to
    a-z going to A-Z. *)
Definition unicode_on_ascii (b : Browser) : Prop :=
  forall str, ascii_only str = true -> toUpperCase b str = canonicalize str.

(** Whether [needle] occurs in [hay]. *)
Fixpoint includes (needle hay : string) : bool :=
  if String.prefix needle hay then true
  else match hay with
       | EmptyString => false
       | String _ rest => includes needle rest
       end.

(** [/Android|webOS|iPhone|iPad|iPod|BlackBerry|IEMobile|Opera Mini/i.test]:
    one of the alternatives occurs in the string, letter case ignored. *)
Definition mobile_pattern_test (ua : string) : bool :=
  let ua := canonicalize ua in
  existsb (fun alternative => includes (canonicalize alternative) ua)
    ["Android"; "webOS"; "iPhone"; "iPad"; "iPod"; "BlackBerry"; "IEMobile";
     "Opera Mini"]%string.

(** [navigator.deviceMemory || 4]: a missing or zero value gives 4. *)
Definition memory_or_default (deviceMemory : option R) : R :=
  match deviceMemory with
  | Some m => if Req_dec_T m 0 then 4 else m
  | None => 4
  end.

(** [detectPerformance]: the new [this.performanceClass], given the one
    the constructor has assigned. *)
Definition detectPerformance (b : Browser) (performanceClass0 : string)
  : string :=
  match telegram_performance_class b with
  | Some (String c rest) => toUpperCase b (String c rest)
  | _ =>
    let isMobile := mobile_pattern_test (userAgent b) in
    let memory := memory_or_default (deviceMemory b) in
    if (isMobile && if Rle_dec memory 2 then true else false)%bool
    then "LOW"%string
    else if (isMobile && if Rle_dec memory 4 then true else false)%bool
    then "AVERAGE"%string
    else if (negb isMobile || if Rlt_dec 4 memory then true else false)%bool
    then "HIGH"%string
    else performanceClass0
  end.

(** [applySettings]: the new [this.settings], given the old one. *)
Definition applySettings
    (performanceClass0 : string) (devicePixelRatio0 : R)
    (settings0 : JS.Object) : JS.Object :=
  if String.eqb performanceClass0 "LOW" then
    [("pixelRatio", JS.Num 0.75); ("targetFPS", JS.Num 30);
     ("shadows", JS.Bool false); ("antialias", JS.Bool false);
     ("maxLights", JS.Num 2); ("particlesEnabled", JS.Bool false);
     ("postProcessing", JS.Bool false); ("lodDistance", JS.Num 30);
     ("maxTreeCount", JS.Num 20); ("fogEnabled", JS.Bool true);
     ("fogNear", JS.Num 20); ("fogFar", JS.Num 50)]%string
  else if String.eqb performanceClass0 "AVERAGE" then
    [("pixelRatio", JS.Num 1.0); ("targetFPS", JS.Num 60);
     ("shadows", JS.Bool true); ("antialias", JS.Bool true);
     ("maxLights", JS.Num 3); ("particlesEnabled", JS.Bool true);
     ("postProcessing", JS.Bool false); ("lodDistance", JS.Num 50);
     ("maxTreeCount", JS.Num 40); ("fogEnabled", JS.Bool true);
     ("fogNear", JS.Num 40); ("fogFar", JS.Num 100)]%string
  else if String.eqb performanceClass0 "HIGH" then
    [("pixelRatio", JS.Num (Rmin devicePixelRatio0 2));
     ("targetFPS", JS.Num 60);
     ("shadows", JS.Bool true); ("antialias", JS.Bool true);
     ("maxLights", JS.Num 4); ("particlesEnabled", JS.Bool true);
     ("postProcessing", JS.Bool true); ("lodDistance", JS.Num 80);
     ("maxTreeCount", JS.Num 60); ("fogEnabled", JS.Bool true);
     ("fogNear", JS.Num 60); ("fogFar", JS.Num 150)]%string
  else settings0.

Definition constructor (b : Browser) : t :=
  let performanceClass1 := detectPerformance b "AVERAGE" in
  mk performanceClass1
     (applySettings performanceClass1 (devicePixelRatio b) []).

Definition getSettings (pm : t) : JS.Object := settings pm.
Definition getPerformanceClass (pm : t) : string := performanceClass pm.

(** The three classes [applySettings] knows. *)
Definition known_class (performanceClass0 : string) : Prop :=
  performanceClass0 = "LOW"%string \/ performanceClass0 = "AVERAGE"%string
  \/ performanceClass0 = "HIGH"%string.

(** The twelve property names of a settings object. *)
Definition setting_names : list string :=
  ["pixelRatio"; "targetFPS"; "shadows"; "antialias"; "maxLights";
   "particlesEnabled"; "postProcessing"; "lodDistance"; "maxTreeCount";
   "fogEnabled"; "fogNear"; "fogFar"]%string.

End PerformanceManager.

(** ** js/models/Environment.js *)

Module Environment.

(** A child of the environment group, as far as this file's code sets or
    reads it: its [name] (three.js gives every object the empty name), its
    position, its Euler rotation, its scale and its [visible] flag.
    Geometry, materials and shadow flags are left out. *)
Record Object3D : Type := mkObject3D {
  name : string;
  position : Vector3.t;
  rotation : Vector3.t;
  scale : Vector3.t;
  visible : bool
}.

(** A freshly made mesh or group: unnamed, at the origin, unrotated,
    unscaled, visible. *)
Definition fresh : Object3D :=
  mkObject3D "" (Vector3.mk 0 0 0) (Vector3.mk 0 0 0) (Vector3.mk 1 1 1) true.

Record t : Type := mk {
  settings : JS.Object;
  children : list Object3D
}.

(** [Math.random] is a stream of numbers; the code draws from it in
    order, and [drawn] counts the draws made so far. *)
Definition Random : Type := nat -> R.

Definition road : Object3D :=
  mkObject3D "" (Vector3.mk 0 0.01 0) (Vector3.mk (- PI / 2) 0 0)
             (Vector3.mk 1 1 1) true.

Definition stripe (i : Z) : Object3D :=
  mkObject3D "" (Vector3.mk 0 0.02 (IZR i)) (Vector3.mk (- PI / 2) 0 0)
             (Vector3.mk 1 1 1) true.

(** [for (let i = -50; i < 50; i += 8)]: the stripes still to add, from
    [i] on.  The fuel bounds the number of rounds. *)
Fixpoint stripes_from (fuel : nat) (i : Z) : list Object3D :=
  match fuel with
  | O => []
  | S fuel' =>
    if (i <? 50)%Z then stripe i :: stripes_from fuel' (i + 8)%Z else []
  end.

(** [createRoad]: the road and its centre stripes, in the order added. *)
Definition createRoad : list Object3D := road :: stripes_from 100 (-50).

Definition createGround : list Object3D :=
  [mkObject3D "" (Vector3.mk 0 0 0) (Vector3.mk (- PI / 2) 0 0)
              (Vector3.mk 1 1 1) true].

(** [createTree]: the group of a trunk and two crowns, before it is
    placed. *)
Definition createTree : Object3D := fresh.

(** One round of the loop of [createTrees], drawing five numbers starting
    at draw number [drawn]. *)
Definition placeTree (random : Random) (drawn : nat) : Object3D :=
  let side := if Rlt_dec 0.5 (random drawn) then 1 else -1 in
  let x := side * (6 + random (drawn + 1)%nat * 10) in
  let z := (random (drawn + 2)%nat - 0.5) * 180 in
  let tree := createTree in
  let rotation_y := random (drawn + 3)%nat * PI * 2 in
  let scale0 := 0.8 + random (drawn + 4)%nat * 0.4 in
  mkObject3D (name tree) (Vector3.mk x 0 z)
             (Vector3.set_y rotation_y (rotation tree))
             (Vector3.mk scale0 scale0 scale0) (visible tree).

(** [Math.min(this.settings.maxTreeCount, 40)]; [None] stands for NaN,
    the result when the property is missing.  [applySettings] stores a
    number there or nothing, and a boolean counts as 0 or 1.  The
    conversion of a string to a number is not modelled: a string is read as
    NaN here, which is what the code does for a string that is no numeral
    only, so the properties below that depend on the count leave settings
    with a string there aside. *)
Definition treeCount (settings0 : JS.Object) : option R :=
  match JS.get "maxTreeCount" settings0 with
  | Some (JS.Num m) => Some (Rmin m 40)
  | Some (JS.Bool b) => Some (Rmin (if b then 1 else 0) 40)
  | _ => None
  end.

(** [for (let i = 0; i < treeCount; i++)]: the trees still to add, from
    round [i] on.  The loop ends by its own test, [i < treeCount]; the fuel
    makes the recursion structural and has to be above [treeCount] for the
    test to be what ends it. *)
Fixpoint trees_from (fuel : nat) (i : nat) (count : R) (random : Random)
  : list Object3D :=
  match fuel with
  | O => []
  | S fuel' =>
    if Rlt_dec (INR i) count
    then placeTree random (5 * i) :: trees_from fuel' (S i) count random
    else []
  end.

(** [createTrees]; the fuel is the first integer above [treeCount], which
    the loop never uses up. *)
Definition createTrees (settings0 : JS.Object) (random : Random)
  : list Object3D :=
  match treeCount settings0 with
  | Some count => trees_from (Z.to_nat (up count)) 0 count random
  | None => []
  end.

(** [createEnvironment]: road, then trees, then ground. *)
Definition constructor (settings0 : JS.Object) (random : Random) : t :=
  mk settings0
     (createRoad ++ createTrees settings0 random ++ createGround).

(** [child.position.distanceTo(truckPosition) < this.settings.lodDistance];
    a missing [lodDistance] compares false ([applySettings] stores a number
    there or nothing). *)
Definition within_lod (settings0 : JS.Object) (distance : R) : bool :=
  match JS.get "lodDistance" settings0 with
  | Some (JS.Num d) => if Rlt_dec distance d then true else false
  | _ => false
  end.

Definition update (truckPosition : Vector3.t) (env : t) : t :=
  match JS.get "performanceClass" (settings env) with
  | Some (JS.Str "LOW") =>
    mk (settings env)
       (map (fun child =>
               if String.eqb (name child) "Tree" then
                 let distance :=
                   Vector3.distanceTo truckPosition (position child) in
                 mkObject3D (name child) (position child) (rotation child)
                            (scale child)
                            (within_lod (settings env) distance)
               else child)
            (children env))
  | _ => env
  end.

(** Every number the stream yields lies in [[0, 1)]. *)
Definition unit_interval (random : Random) : Prop :=
  forall k, 0 <= random k < 1.

End Environment.

(** ** js/Game.js: the objects the frame loop drives *)

Module Game.

(** The game's performance manager, truck controller (which holds the
    truck), camera rig (which holds the camera) and environment.  The
    scene, the lights and the renderer are three.js objects the loop only
    hands on. *)
Record t : Type := mk {
  perfManager : PerformanceManager.t;
  truckController : TruckController.t;
  cameraController : CameraController.t;
  environment : Environment.t
}.

Definition settings (g : t) : JS.Object :=
  PerformanceManager.getSettings (perfManager g).

(** The constructor and [init]: camera at [(0, 8, 15)] aimed at the
    origin, a new truck with its controller, the environment, the rig. *)
Definition constructor
    (b : PerformanceManager.Browser) (random : Environment.Random) : t :=
  let pm := PerformanceManager.constructor b in
  mk pm
     (TruckController.constructor Truck.constructor)
     (CameraController.constructor CameraController.game_camera)
     (Environment.constructor (PerformanceManager.getSettings pm) random).

(** [updateCamera] *)
Definition updateCamera
    (tc : TruckController.t) (cc : CameraController.t) : CameraController.t :=
  let truckPos := TruckController.getPosition tc in
  let truckRot := TruckController.getRotation tc in
  CameraController.update truckPos truckRot cc.

(** [update]: one frame, [deltaTime] being [this.clock.getDelta()]. *)
Definition update (deltaTime : R) (g : t) : t :=
  let tc := TruckController.update deltaTime (truckController g) in
  let cc := updateCamera tc (cameraController g) in
  let env := Environment.update (TruckController.getPosition tc)
                                (environment g) in
  mk (perfManager g) tc cc env.

(** [setupFog]: the near and far distance of the fog, if fog is set up. *)
Definition setupFog (g : t) : option (option JS.Value * option JS.Value) :=
  if JS.truthy (JS.get "fogEnabled" (settings g))
  then Some (JS.get "fogNear" (settings g), JS.get "fogFar" (settings g))
  else None.

(** What happens to a running game: a control listener runs, a camera
    listener runs, or the loop renders a frame. *)
Inductive Action : Type :=
| TruckInput (ev : TruckController.Event)
| CameraInput (ev : CameraController.Event)
| Frame (deltaTime : R).

Definition step (a : Action) (g : t) : t :=
  match a with
  | TruckInput ev =>
    mk (perfManager g)
       (TruckController.step (TruckController.Input ev) (truckController g))
       (cameraController g) (environment g)
  | CameraInput ev =>
    mk (perfManager g) (truckController g)
       (CameraController.handle ev (cameraController g)) (environment g)
  | Frame deltaTime => update deltaTime g
  end.

Inductive reachable : t -> Prop :=
| reachable_constructor b random : reachable (constructor b random)
| reachable_step a g : reachable g -> reachable (step a g).

Definition run (actions : list Action) (g : t) : t :=
  fold_left (fun g a => step a g) actions g.

(** A desktop browser without Telegram, and a random stream that always
    yields one half. *)
Definition desktop : PerformanceManager.Browser :=
  PerformanceManager.mkBrowser
    None "Mozilla/5.0 (X11; Linux x86_64)" (Some 8) 1
    PerformanceManager.canonicalize.

Definition halves : Environment.Random := fun _ => 0.5.

End Game.

(** ** Smoothing lag *)

Module Smoothing.

(** How far the camera is from the point it is heading for, given the pose
    the truck has now. *)
Definition lag (g : Game.t) : R :=
  Vector3.distanceTo
    (CameraController.targetCameraPos
       (TruckController.getPosition (Game.truckController g))
       (TruckController.getRotation (Game.truckController g))
       (Game.cameraController g))
    (CameraController.cam_position
       (CameraController.camera (Game.cameraController g))).

(** No camera gesture among the actions. *)
Definition no_gesture (actions : list Game.Action) : Prop :=
  Forall (fun a => match a with Game.CameraInput _ => False | _ => True end)
         actions.

End Smoothing.

(** * Properties *)

(** ** Clamping *)

Ltac clamp_cases :=
  unfold MathUtils.clamp, Rmax, Rmin in *;
  repeat match goal with
         | |- context [Rle_dec ?a ?b] => destruct (Rle_dec a b)
         | H : context [Rle_dec ?a ?b] |- _ => destruct (Rle_dec a b)
         end.

Lemma clamp_within (value lo hi : R) :
  lo <= hi -> lo <= MathUtils.clamp value lo hi <= hi.
Proof. intros Hle. clamp_cases; lra. Qed.

Lemma clamp_inside (value lo hi : R) :
  lo <= value <= hi -> MathUtils.clamp value lo hi = value.
Proof. intros Hin. clamp_cases; lra. Qed.

(** ** The truck controller: what every reachable state satisfies *)

Section TruckInvariants.

Import TruckController.

Lemma tuned_constructor truck0 : tuned (constructor truck0).
Proof. repeat split. Qed.

Lemma tuned_step a s : tuned s -> tuned (step a s).
Proof. destruct a; intros H; exact H. Qed.

Lemma reachable_tuned s : reachable s -> tuned s.
Proof.
  induction 1 as [truck0 | a s _ IH].
  - apply tuned_constructor.
  - now apply tuned_step.
Qed.

(** [update] leaves the speed inside the limits whenever the forward
    limit is not negative. *)
Lemma update_speed_within deltaTime s :
  0 <= maxSpeed s ->
  - maxSpeed s * 0.5 <= speed (update deltaTime s) <= maxSpeed s.
Proof.
  intros Hm. unfold update; cbn [speed]. apply clamp_within. lra.
Qed.

Lemma reachable_speed_within s :
  reachable s -> - maxSpeed s * 0.5 <= speed s <= maxSpeed s.
Proof.
  intros Hr. induction Hr as [truck0 | a s Hr IH].
  - cbn. lra.
  - destruct a as [ev | deltaTime | ].
    + exact IH.
    + change (maxSpeed (step (Tick deltaTime) s)) with (maxSpeed s).
      apply update_speed_within.
      destruct (reachable_tuned s Hr) as [-> _]. lra.
    + cbn. destruct (reachable_tuned s Hr) as [-> _]. lra.
Qed.

(** A reachable state is a run from a fresh controller, and conversely. *)
Lemma run_app l1 l2 s : run (l1 ++ l2) s = run l2 (run l1 s).
Proof. unfold run. apply fold_left_app. Qed.

Lemma reachable_run truck0 actions :
  reachable (run actions (constructor truck0)).
Proof.
  induction actions as [ | a l IH] using rev_ind.
  - apply reachable_constructor.
  - rewrite run_app. cbn. now apply reachable_step.
Qed.

Lemma reachable_is_run s :
  reachable s -> exists truck0 actions, s = run actions (constructor truck0).
Proof.
  induction 1 as [truck0 | a s _ (truck0 & l & ->)].
  - now exists truck0, [].
  - exists truck0, (l ++ [a]). now rewrite run_app.
Qed.

Lemma ticks_controls n deltaTime s :
  controls (ticks n deltaTime s) = controls s.
Proof. induction n as [ | n IH]; [reflexivity | exact IH]. Qed.

Lemma ticks_tuned n deltaTime s : tuned s -> tuned (ticks n deltaTime s).
Proof. induction n as [ | n IH]; intros H; [exact H | exact (IH H)]. Qed.

Lemma ticks_reachable n deltaTime s :
  reachable s -> reachable (ticks n deltaTime s).
Proof.
  intros Hr. induction n as [ | n IH]; [exact Hr | ].
  exact (reachable_step (Tick deltaTime) _ IH).
Qed.

Lemma holding_reachable n truck0 : reachable (holding n truck0).
Proof. apply reachable_step, reachable_constructor. Qed.

Lemma holding_tuned n truck0 : tuned (holding n truck0).
Proof. apply reachable_tuned, holding_reachable. Qed.

(** Brake held from rest: the speed after [n] frames, in closed form. *)
Lemma braking_speed truck0 n deltaTime :
  speed (ticks n deltaTime (holding Brake truck0))
  = Rmax (-0.25) (- 0.02 * INR n).
Proof.
  induction n as [ | n IH].
  - cbn. unfold Rmax. destruct Rle_dec; lra.
  - rewrite S_INR. cbn [ticks]. unfold update at 1. cbn [speed].
    rewrite ticks_controls, IH.
    destruct (ticks_tuned n deltaTime (holding Brake truck0)
                (holding_tuned Brake truck0)) as (-> & _ & -> & _).
    pose proof (pos_INR n). cbn. clamp_cases; lra.
Qed.

(** Gas held from rest: the speed after [n] frames, in closed form. *)
Lemma accelerating_speed truck0 n deltaTime :
  speed (ticks n deltaTime (holding Gas truck0))
  = Rmin 0.5 (0.01 * INR n).
Proof.
  induction n as [ | n IH].
  - cbn. unfold Rmin. destruct Rle_dec; lra.
  - rewrite S_INR. cbn [ticks]. unfold update at 1. cbn [speed].
    rewrite ticks_controls, IH.
    destruct (ticks_tuned n deltaTime (holding Gas truck0)
                (holding_tuned Gas truck0)) as (-> & -> & _).
    pose proof (pos_INR n). cbn. clamp_cases; lra.
Qed.

End TruckInvariants.

(** ** Speed limits and the two pedal scenarios *)

Section SpeedClaims.

Import TruckController.

(** C1.  In every reachable state of the controller, whatever the events
    received so far, the speed after the next [update] lies in
    [[-maxSpeed * 0.5, maxSpeed]], with [maxSpeed] still the constructor's
    [0.5].  With only the brake held from rest the speed never rises from
    one frame to the next, falls strictly while it is above
    [-maxSpeed * 0.5], never goes below that bound, and sits on it from the
    13th frame on.  On binary64 numbers too the brake-only run stays inside
    the limits at every frame and sits on [-maxSpeed * 0.5] from the 13th
    frame on. *)
Theorem speed_within_limits :
  (forall s deltaTime,
      reachable s ->
      - maxSpeed s * 0.5 <= speed (update deltaTime s) <= maxSpeed s
      /\ maxSpeed (update deltaTime s) = maxSpeed s
      /\ maxSpeed s = 0.5)
  /\ (forall truck0 deltaTime n,
        let s := ticks n deltaTime (holding Brake truck0) in
        - maxSpeed s * 0.5 <= speed s
        /\ speed (update deltaTime s) <= speed s
        /\ (- maxSpeed s * 0.5 < speed s ->
            speed (update deltaTime s) < speed s)
        /\ ((13 <= n)%nat -> speed s = - maxSpeed s * 0.5))
  /\ (forall n,
        Binary64.within_limits (Binary64.ticks n false true Binary64.rest)
        = true
        /\ ((13 <= n)%nat ->
            Binary64.ticks n false true Binary64.rest
            = Binary64.reverse_limit)).
Proof.
  split; [ | split].
  - intros s deltaTime Hr.
    destruct (reachable_tuned s Hr) as (Hm & _).
    split; [ | split; [reflexivity | exact Hm] ].
    apply update_speed_within. lra.
  - intros truck0 deltaTime n s.
    assert (Hm : maxSpeed s = 0.5)
      by apply (ticks_tuned n deltaTime _ (holding_tuned Brake truck0)).
    assert (Hn : speed s = Rmax (-0.25) (- 0.02 * INR n))
      by apply braking_speed.
    assert (Hs : speed (update deltaTime s)
                 = Rmax (-0.25) (- 0.02 * INR (S n)))
      by apply (braking_speed truck0 (S n) deltaTime).
    rewrite Hm, Hn, Hs, S_INR. pose proof (pos_INR n) as Hpos.
    repeat split.
    + unfold Rmax; destruct Rle_dec; lra.
    + unfold Rmax; repeat destruct Rle_dec; lra.
    + unfold Rmax; repeat destruct Rle_dec; lra.
    + intros Hge. apply le_INR in Hge.
      replace (INR 13) with 13 in Hge by (simpl; lra).
      unfold Rmax; destruct Rle_dec; lra.
  - assert (Hfrom : forall k,
               Binary64.ticks (k + 13) false true Binary64.rest
               = Binary64.reverse_limit).
    { induction k as [ | k IH].
      - vm_compute. reflexivity.
      - cbn [Nat.add Binary64.ticks]. rewrite IH. vm_compute. reflexivity. }
    intros n. split.
    + destruct (Nat.lt_ge_cases n 13) as [Hlt | Hge].
      * do 13 (destruct n as [ | n]; [vm_compute; reflexivity | ]). lia.
      * replace n with ((n - 13) + 13)%nat by lia. rewrite Hfrom.
        vm_compute. reflexivity.
    + intros Hge. replace n with ((n - 13) + 13)%nat by lia. apply Hfrom.
Qed.

Lemma speed_within_limits_witness :
  let s := run [Input (KeyDown (mkKey "w" "KeyW")); Tick 0.016;
                Input (TouchStart Brake)]
               (constructor Truck.constructor) in
  - maxSpeed s * 0.5 <= speed (update 0.016 s) <= maxSpeed s.
Proof.
  intros s.
  apply (proj1 speed_within_limits s 0.016).
  apply reachable_run.
Defined.

(** C8.  From rest with only the gas held, each [update] adds exactly the
    acceleration [0.01] until the limit [maxSpeed = 0.5] is reached: the
    speed after [n] frames is [min(0.5, 0.01 * n)], so it is exactly [0.5]
    after the 50th update and after every later one.  The same holds on
    binary64 numbers: the 50th update and every later one leave the speed
    at exactly [0.5]. *)
Theorem accelerate_reaches_max_speed :
  (forall truck0 deltaTime n,
      let s := ticks n deltaTime (holding Gas truck0) in
      acceleration s = 0.01 /\ maxSpeed s = 0.5
      /\ speed s = Rmin 0.5 (0.01 * INR n)
      /\ ((n < 50)%nat ->
          speed (update deltaTime s) = speed s + acceleration s)
      /\ ((50 <= n)%nat -> speed s = maxSpeed s))
  /\ (forall n, (50 <= n)%nat ->
                Binary64.ticks n true false Binary64.rest = Binary64.maxSpeed).
Proof.
  split.
  - intros truck0 deltaTime n s.
    destruct (ticks_tuned n deltaTime _ (holding_tuned Gas truck0))
      as (Hm & Ha & _).
    fold s in Hm, Ha.
    assert (Hn : speed s = Rmin 0.5 (0.01 * INR n))
      by apply accelerating_speed.
    assert (Hs : speed (update deltaTime s) = Rmin 0.5 (0.01 * INR (S n)))
      by apply (accelerating_speed truck0 (S n) deltaTime).
    rewrite Hm, Ha, Hn, Hs, S_INR. pose proof (pos_INR n) as Hpos.
    repeat split.
    + intros Hlt. apply le_INR in Hlt. rewrite S_INR in Hlt.
      replace (INR 50) with 50 in Hlt by (simpl; lra).
      unfold Rmin; repeat destruct Rle_dec; lra.
    + intros Hge. apply le_INR in Hge.
      replace (INR 50) with 50 in Hge by (simpl; lra).
      unfold Rmin; destruct Rle_dec; lra.
  - intros n Hge.
    replace n with ((n - 50) + 50)%nat by lia.
    induction (n - 50)%nat as [ | k IH].
    + vm_compute. reflexivity.
    + change (S k + 50)%nat with (S (k + 50)). cbn [Binary64.ticks].
      rewrite IH. vm_compute. reflexivity.
Qed.

Lemma accelerate_reaches_max_speed_witness :
  speed (ticks 50 0.016 (holding Gas Truck.constructor)) = 0.5
  /\ Binary64.ticks 50 true false Binary64.rest = Binary64.maxSpeed.
Proof.
  split.
  - destruct (proj1 accelerate_reaches_max_speed Truck.constructor 0.016 50%nat)
      as (_ & Hm & _ & _ & H).
    rewrite <- Hm. apply H. lia.
  - apply (proj2 accelerate_reaches_max_speed 50%nat). lia.
Defined.

End SpeedClaims.

(** ** Position: the lane and the ground plane *)

Section PositionClaims.

Import TruckController.

Lemma update_in_lane deltaTime s : in_lane (update deltaTime s).
Proof.
  unfold in_lane, update; cbn [position Vector3.x Vector3.set_x].
  apply clamp_within. lra.
Qed.

(** C5.  After every [update], from any state and under any controls, the
    new [position.x] is the clamp to [[-3, 3]] of the old [position.x] plus
    the new [velocity.x]: the clamp comes after the integration, and
    whatever falls outside the lane is cut off without an error. *)
Theorem position_x_within_lane (s : t) (deltaTime : R) :
  let s' := update deltaTime s in
  Vector3.x (position s')
  = MathUtils.clamp (Vector3.x (position s) + Vector3.x (velocity s')) (-3) 3
  /\ Vector3.x (velocity s') = sin (rotation s') * speed s'
  /\ -3 <= Vector3.x (position s') <= 3.
Proof.
  cbn zeta. split; [reflexivity | split; [reflexivity | ] ].
  apply update_in_lane.
Qed.

Lemma grounded_step a s : grounded s -> grounded (step a s).
Proof.
  intros [Hp Hv]. destruct a as [ev | deltaTime | ].
  - now split.
  - unfold grounded, step, update.
    cbn [position velocity Vector3.y Vector3.set_x Vector3.set_z Vector3.add].
    rewrite Hp, Hv. split; lra.
  - now split.
Qed.

Lemma reachable_grounded s : reachable s -> grounded s.
Proof.
  induction 1 as [truck0 | a s _ IH].
  - now split.
  - now apply grounded_step.
Qed.

(** C10.  The vehicle stays on the ground plane: [position.y] and
    [velocity.y] are 0 in the state the constructor builds and in every
    state reached from it by events, updates and resets; in particular
    after one more [update] and after [reset].  [update] keeps the
    [velocity.y] it finds and adds it to [position.y]. *)
Theorem vehicle_stays_on_ground :
  (forall truck0, grounded (constructor truck0))
  /\ (forall s, reachable s ->
       grounded s
       /\ (forall deltaTime, grounded (update deltaTime s))
       /\ grounded (reset s))
  /\ (forall s deltaTime,
       Vector3.y (velocity (update deltaTime s)) = Vector3.y (velocity s)
       /\ Vector3.y (position (update deltaTime s))
          = Vector3.y (position s) + Vector3.y (velocity s)).
Proof.
  split; [ | split].
  - intros truck0. now split.
  - intros s Hr. split; [ | split].
    + now apply reachable_grounded.
    + intros deltaTime.
      apply (reachable_grounded _ (reachable_step (Tick deltaTime) s Hr)).
    + apply (reachable_grounded _ (reachable_step Restart s Hr)).
  - intros s deltaTime. split; reflexivity.
Qed.

Lemma vehicle_stays_on_ground_witness :
  grounded
    (run [Input (TouchStart Gas); Tick 0.016; Input (TouchStart Left);
          Tick 0.016; Tick 0.016; Restart; Tick 0.016]
       (constructor Truck.constructor)).
Proof.
  exact (proj1 (proj1 (proj2 vehicle_stays_on_ground) _ (reachable_run _ _))).
Defined.

End PositionClaims.

(** ** The frame time *)

Section FrameTimeClaims.

Import TruckController.

Lemma in_lane_step a s : in_lane s -> in_lane (step a s).
Proof.
  intros H. destruct a as [ev | deltaTime | ].
  - exact H.
  - apply update_in_lane.
  - unfold in_lane; cbn. lra.
Qed.

Lemma reachable_in_lane s : reachable s -> in_lane s.
Proof.
  induction 1 as [truck0 | a s _ IH].
  - unfold in_lane; cbn. lra.
  - now apply in_lane_step.
Qed.

Lemma reachable_velocity_along_heading s :
  reachable s -> velocity_along_heading s.
Proof.
  induction 1 as [truck0 | a s _ IH].
  - unfold velocity_along_heading; cbn. split; lra.
  - destruct a as [ev | deltaTime | ].
    + exact IH.
    + split; reflexivity.
    + unfold velocity_along_heading; cbn. split; lra.
Qed.

(** At rest with both pedals released, [update] changes nothing of the
    vehicle state. *)
Lemma update_at_rest deltaTime s :
  reachable s ->
  gas (controls s) = false -> brake (controls s) = false -> speed s = 0 ->
  same_vehicle_state (update deltaTime s) s.
Proof.
  intros Hr Hg Hb Hs.
  destruct (reachable_tuned s Hr) as (Hm & _ & _ & Hf & _).
  destruct (reachable_grounded s Hr) as [Hpy Hvy].
  destruct (reachable_velocity_along_heading s Hr) as [Hvx Hvz].
  pose proof (reachable_in_lane s Hr) as Hx. unfold in_lane in Hx.
  assert (Hs' : speed (update deltaTime s) = 0).
  { unfold update; cbn [speed]. rewrite Hg, Hb, Hs, Hm.
    clamp_cases; lra. }
  assert (Hr' : rotation (update deltaTime s) = rotation s).
  { unfold update; cbn [rotation]. rewrite Hg, Hb, Hs, Hm.
    destruct Rlt_dec as [Hlt | _]; [ | reflexivity].
    exfalso. revert Hlt. unfold Rabs. destruct Rcase_abs; clamp_cases; lra. }
  assert (Hv' : velocity (update deltaTime s) = velocity s).
  { change (velocity (update deltaTime s))
      with (Vector3.set_z
              (cos (rotation (update deltaTime s)) * speed (update deltaTime s))
              (Vector3.set_x
                 (sin (rotation (update deltaTime s))
                  * speed (update deltaTime s)) (velocity s))).
    rewrite Hs', Hr'. rewrite Hs in Hvx, Hvz.
    destruct (velocity s) as [vx vy vz]. cbn in *. now subst. }
  split; [ | split; [exact Hr' | split; [rewrite Hs'; now symmetry | exact Hv'] ] ].
  change (position (update deltaTime s))
    with (let p := Vector3.add (velocity (update deltaTime s)) (position s) in
          Vector3.set_x (MathUtils.clamp (Vector3.x p) (-3) 3) p).
  rewrite Hv'. rewrite Hs in Hvx, Hvz. clear Hs' Hr' Hv'.
  destruct (position s) as [px py pz], (velocity s) as [vx vy vz].
  cbn in Hx, Hpy, Hvy, Hvx, Hvz |- *. rewrite Hpy, Hvy, Hvx, Hvz.
  unfold Vector3.set_x, Vector3.add; cbn [Vector3.x Vector3.y Vector3.z].
  f_equal; try lra.
  rewrite clamp_inside; lra.
Qed.

(** C3, as the code has it.  [update] never reads [deltaTime]: [update(0)]
    is the same full frame as [update(deltaTime)] for every [deltaTime].  It
    leaves position, heading, speed and velocity unchanged in every
    reachable state that is at rest with gas and brake both released. *)
Theorem update_ignores_deltaTime :
  (forall s deltaTime, update deltaTime s = update 0 s)
  /\ (forall s,
        reachable s ->
        gas (controls s) = false -> brake (controls s) = false ->
        speed s = 0 ->
        same_vehicle_state (update 0 s) s).
Proof.
  split.
  - reflexivity.
  - intros s. apply update_at_rest.
Qed.

Lemma update_ignores_deltaTime_witness :
  let s := run [Input (TouchStart Left); Tick 0.016; Restart;
                Input (KeyDown (mkKey "ArrowRight" "ArrowRight"))]
               (constructor Truck.constructor) in
  same_vehicle_state (update 0 s) s.
Proof.
  intros s.
  apply (proj2 update_ignores_deltaTime s);
    [apply reachable_run | reflexivity | reflexivity | reflexivity].
Defined.

(** C3, as stated, fails: with the gas held on a fresh controller,
    [update(0)] raises the speed from 0 to 0.01 and moves the truck. *)
Lemma update_zero_changes_state :
  let s := holding Gas Truck.constructor in
  speed s = 0
  /\ speed (update 0 s) = 0.01
  /\ Vector3.z (position (update 0 s)) = cos 0 * 0.01
  /\ ~ same_vehicle_state (update 0 s) s.
Proof.
  assert (Hs : speed (update 0 (holding Gas Truck.constructor)) = 0.01).
  { cbn. clamp_cases; lra. }
  cbn zeta. split; [reflexivity | split; [exact Hs | split] ].
  - change (Vector3.z (position (update 0 (holding Gas Truck.constructor))))
      with (0 + cos (rotation (update 0 (holding Gas Truck.constructor)))
                * speed (update 0 (holding Gas Truck.constructor))).
    rewrite Hs.
    assert (Hr : rotation (update 0 (holding Gas Truck.constructor)) = 0).
    { unfold update; cbn [rotation].
      change (MathUtils.clamp _ _ _)
        with (speed (update 0 (holding Gas Truck.constructor))).
      rewrite Hs. destruct Rlt_dec as [Hlt | _]; [ | reflexivity].
      exfalso. revert Hlt. unfold Rabs. destruct Rcase_abs; lra. }
    rewrite Hr. lra.
  - intros (_ & _ & H & _). rewrite Hs in H. cbn in H. lra.
Qed.

End FrameTimeClaims.

(** ** Steering *)

Section SteeringClaims.

Import TruckController.

(** The heading after [update], by cases on the speed the gate reads: the
    speed this same call has just computed and stored. *)
Lemma update_rotation deltaTime s :
  rotation (update deltaTime s)
  = if Rlt_dec 0.01 (Rabs (speed (update deltaTime s))) then
      rotation s
      + turnSpeed s * (Rabs (speed (update deltaTime s)) / maxSpeed s)
        * sign (speed (update deltaTime s)) * steerInput (controls s)
    else rotation s.
Proof.
  unfold update; cbn [rotation speed controls].
  set (v := MathUtils.clamp _ _ _).
  destruct (Rlt_dec 0.01 (Rabs v)) as [Hgate | Hgate]; [ | reflexivity].
  assert (Hv : v <> 0).
  { intros ->. rewrite Rabs_R0 in Hgate. lra. }
  unfold sign, steerInput.
  destruct (Rlt_dec 0 v) as [Hpos | Hneg].
  - destruct (left (controls s)), (right (controls s)); unfold Rdiv; ring.
  - destruct (Rlt_dec v 0) as [_ | Hz]; [ | lra].
    destruct (left (controls s)), (right (controls s)); unfold Rdiv; ring.
Qed.

Lemma steerInput_values c :
  steerInput c = -1 \/ steerInput c = 0 \/ steerInput c = 1.
Proof.
  unfold steerInput. destruct (left c), (right c).
  - right; left; lra.
  - right; right; lra.
  - left; lra.
  - right; left; lra.
Qed.

(** The speed the gate reads is the one this call has just stored, not the
    one it found: a truck at rest with brake and left held reverses at
    [-0.02] within the call, which is past the deadzone, and so turns in
    that same call. *)
Lemma braking_from_rest_steers :
  let s := run [Input (TouchStart Brake); Input (TouchStart Left)]
               (constructor Truck.constructor) in
  speed s = 0
  /\ speed (update 0.016 s) = -0.02
  /\ rotation (update 0.016 s) = rotation s - 0.0012.
Proof.
  intros s.
  assert (Hv : speed (update 0.016 s) = -0.02).
  { subst s. cbn. clamp_cases; lra. }
  split; [reflexivity | split; [exact Hv | ] ].
  rewrite update_rotation, Hv.
  destruct (Rlt_dec 0.01 (Rabs (-0.02))) as [_ | Hn].
  - subst s. cbn. unfold sign, steerInput. cbn.
    rewrite Rabs_left by lra.
    destruct (Rlt_dec 0 (-0.02)); [lra | ].
    destruct (Rlt_dec (-0.02) 0); lra.
  - exfalso. apply Hn. rewrite Rabs_left; lra.
Qed.

(** A truck at rest turns in an [update] only if that call sets it in
    reverse: with the gas held the new speed is the deadzone itself, with
    both pedals released it stays 0. *)
Lemma update_from_rest deltaTime s :
  tuned s -> speed s = 0 ->
  gas (controls s) = true \/ brake (controls s) = false ->
  Rabs (speed (update deltaTime s)) <= 0.01.
Proof.
  intros (Hm & Ha & _ & Hf & _) Hs Hpedal.
  unfold update; cbn [speed]. rewrite Hs, Hm, Ha, Hf.
  destruct (gas (controls s)).
  - unfold Rabs. destruct Rcase_abs; clamp_cases; lra.
  - destruct Hpedal as [Hg | ->]; [discriminate Hg | ].
    unfold Rabs. destruct Rcase_abs; clamp_cases; lra.
Qed.

(** C4, as the code has it.  Steering is gated by the speed [update] has
    just computed and stored, not by the speed the call found.  On binary64
    numbers, for every speed, heading and controls: while the test
    [|speed| > 0.01] on the new speed fails the heading keeps its value, so
    the heading changes only when the test holds; when it holds, left adds
    the amount [turnSpeed * |speed| / maxSpeed * direction] to the heading
    and right subtracts the same amount, both in turn when both are held,
    which leaves the heading at [(heading + amount) - amount]; and a truck
    at rest whose brake is released, or whose gas is held, does not turn in
    the call.  In exact arithmetic the same gate holds; with at most one of
    left and right held the increment is
    [turnSpeed * (|speed| / maxSpeed) * sign(speed) * steerInput] with
    [steerInput] -1, 0 or +1 (left counts +1, right -1); and with the
    constructor's constants the same steer control turns one way when
    moving forward and the other way in reverse. *)
Theorem steering_gated_by_speed :
  (forall (c : Controls) (v : Binary64.Vehicle),
      let v' := Binary64.update c v in
      let amount := Binary64.turn (Binary64.v_speed v') in
      let heading := Binary64.v_rotation v in
      (Binary64.steering_open (Binary64.v_speed v') = false ->
       Binary64.v_rotation v' = heading)
      /\ (Binary64.v_rotation v' <> heading ->
          Binary64.steering_open (Binary64.v_speed v') = true)
      /\ (Binary64.steering_open (Binary64.v_speed v') = true ->
          Binary64.v_rotation v'
          = match left c, right c with
            | true, false => PrimFloat.add heading amount
            | false, true => PrimFloat.sub heading amount
            | true, true =>
              PrimFloat.sub (PrimFloat.add heading amount) amount
            | false, false => heading
            end)
      /\ (Binary64.v_speed v = Binary64.rest ->
          gas c = true \/ brake c = false ->
          Binary64.v_rotation v' = heading))
  /\ (forall (s : t) (deltaTime : R),
        let s' := update deltaTime s in
        let turn :=
          turnSpeed s * (Rabs (speed s') / maxSpeed s) * sign (speed s')
          * steerInput (controls s) in
        (Rabs (speed s') <= 0.01 -> rotation s' = rotation s)
        /\ (speed s' = 0 -> rotation s' = rotation s)
        /\ (rotation s' <> rotation s -> 0.01 < Rabs (speed s'))
        /\ (0.01 < Rabs (speed s') ->
            left (controls s) = false \/ right (controls s) = false ->
            rotation s' = rotation s + turn)
        /\ (steerInput (controls s) = -1 \/ steerInput (controls s) = 0
            \/ steerInput (controls s) = 1)
        /\ (tuned s -> speed s = 0 ->
            gas (controls s) = true \/ brake (controls s) = false ->
            rotation s' = rotation s)
        /\ (tuned s ->
            left (controls s) = true -> right (controls s) = false ->
            (0.01 < speed s' -> rotation s < rotation s')
            /\ (speed s' < -0.01 -> rotation s' < rotation s))
        /\ (tuned s ->
            left (controls s) = false -> right (controls s) = true ->
            (0.01 < speed s' -> rotation s' < rotation s)
            /\ (speed s' < -0.01 -> rotation s < rotation s'))).
Proof.
  split.
  - intros c v v' amount heading. subst v' amount heading.
    unfold Binary64.update. cbn [Binary64.v_speed Binary64.v_rotation].
    set (speed1 := Binary64.update_speed (gas c) (brake c)
                     (Binary64.v_speed v)).
    assert (Hclosed : Binary64.steering_open speed1 = false ->
                      Binary64.update_rotation (left c) (right c) speed1
                        (Binary64.v_rotation v)
                      = Binary64.v_rotation v).
    { intros Hshut. unfold Binary64.update_rotation. now rewrite Hshut. }
    split; [exact Hclosed | ].
    split.
    { intros Hmoved.
      destruct (Binary64.steering_open speed1) eqn:Hopen; [reflexivity | ].
      exfalso. now apply Hmoved, Hclosed. }
    split.
    { intros Hopen. unfold Binary64.update_rotation. rewrite Hopen.
      now destruct (left c), (right c). }
    intros Hrest Hpedal. apply Hclosed. subst speed1. rewrite Hrest.
    destruct (gas c); [reflexivity | ].
    destruct Hpedal as [Hg | ->]; [discriminate Hg | reflexivity].
  - intros s deltaTime s' turn. subst turn.
    pose proof (update_rotation deltaTime s) as Hrot. fold s' in Hrot.
    assert (Hclosed : Rabs (speed s') <= 0.01 -> rotation s' = rotation s).
    { intros Hle. rewrite Hrot. destruct Rlt_dec; [lra | reflexivity]. }
    assert (Hopen : 0.01 < Rabs (speed s') ->
                    rotation s' = rotation s
                      + turnSpeed s * (Rabs (speed s') / maxSpeed s)
                        * sign (speed s') * steerInput (controls s)).
    { intros Hlt. rewrite Hrot at 1. destruct Rlt_dec; [reflexivity | lra]. }
    split; [exact Hclosed | ].
    split. { intros Hz. apply Hclosed. rewrite Hz, Rabs_R0. lra. }
    split.
    { intros Hne.
      destruct (Rlt_dec 0.01 (Rabs (speed s'))) as [ | Hn]; [assumption | ].
      exfalso. apply Hne, Hclosed. lra. }
    split; [intros Hlt _; exact (Hopen Hlt) | ].
    split; [apply steerInput_values | ].
    split.
    { intros Ht Hs Hpedal. apply Hclosed. now apply update_from_rest. }
    split.
    + intros (Hm & _ & _ & _ & Ht) Hl Hr.
      assert (Hin : steerInput (controls s) = 1)
        by (unfold steerInput; rewrite Hl, Hr; lra).
      split; intros Hv.
      * rewrite Hopen by (rewrite Rabs_right; lra).
        rewrite Hin, Hm, Ht, Rabs_right by lra.
        unfold sign. destruct (Rlt_dec 0 (speed s')); lra.
      * rewrite Hopen by (rewrite Rabs_left; lra).
        rewrite Hin, Hm, Ht, Rabs_left by lra.
        unfold sign. destruct (Rlt_dec 0 (speed s')); [lra | ].
        destruct (Rlt_dec (speed s') 0); lra.
    + intros (Hm & _ & _ & _ & Ht) Hl Hr.
      assert (Hin : steerInput (controls s) = -1)
        by (unfold steerInput; rewrite Hl, Hr; lra).
      split; intros Hv.
      * rewrite Hopen by (rewrite Rabs_right; lra).
        rewrite Hin, Hm, Ht, Rabs_right by lra.
        unfold sign. destruct (Rlt_dec 0 (speed s')); lra.
      * rewrite Hopen by (rewrite Rabs_left; lra).
        rewrite Hin, Hm, Ht, Rabs_left by lra.
        unfold sign. destruct (Rlt_dec 0 (speed s')); [lra | ].
        destruct (Rlt_dec (speed s') 0); lra.
Qed.

Lemma steering_gated_by_speed_witness :
  (let s := run [Input (TouchStart Brake); Tick 0.016;
                 Input (TouchStart Left)]
                (constructor Truck.constructor) in
   speed (update 0.016 s) < -0.01 /\ rotation (update 0.016 s) < rotation s)
  /\ (let c := mkControls true false true false in
      Binary64.v_rotation (Binary64.update c Binary64.fresh)
      = Binary64.v_rotation Binary64.fresh).
Proof.
  split.
  - intros s.
    assert (Hv : speed (update 0.016 s) < -0.01).
    { subst s. cbn. clamp_cases; lra. }
    split; [exact Hv | ].
    destruct (proj2 steering_gated_by_speed s 0.016)
      as (_ & _ & _ & _ & _ & _ & Hleft & _).
    apply Hleft; [apply reachable_tuned, reachable_run | reflexivity
                 | reflexivity | exact Hv].
  - intros c.
    apply (proj1 steering_gated_by_speed c Binary64.fresh);
      [reflexivity | left; reflexivity].
Defined.

(** C4, as stated, fails twice.  A truck whose speed is 0 does turn when
    the brake is held with a steer control: the call itself sets the speed
    to [-0.02], past the deadzone, and the heading moves by [-0.0012].  And
    on binary64 numbers holding left and right together does not leave the
    heading as it was: after two frames of gas and left, a frame with gas,
    left and right moves the heading from [0.0011999999999999999] to
    [0.0012000000000000001]. *)
Lemma steering_claim_fails :
  (let s := run [Input (TouchStart Brake); Input (TouchStart Left)]
                (constructor Truck.constructor) in
   speed s = 0
   /\ rotation (update 0.016 s) = rotation s - 0.0012
   /\ rotation (update 0.016 s) <> rotation s)
  /\ (let gas_left := mkControls true false true false in
      let gas_both := mkControls true false true true in
      let v := Binary64.run [gas_left; gas_left] Binary64.fresh in
      left gas_both = true /\ right gas_both = true
      /\ PrimFloat.ltb (Binary64.v_rotation v)
           (Binary64.v_rotation (Binary64.update gas_both v)) = true
      /\ Binary64.v_rotation (Binary64.update gas_both v)
         <> Binary64.v_rotation v).
Proof.
  split.
  - destruct braking_from_rest_steers as (Hs & _ & Hrot).
    cbn zeta in *. split; [exact Hs | split; [exact Hrot | ] ].
    rewrite Hrot. lra.
  - cbn zeta. split; [reflexivity | split; [reflexivity | ] ].
    assert (Hlt : PrimFloat.ltb
                    (Binary64.v_rotation
                       (Binary64.run
                          [mkControls true false true false;
                           mkControls true false true false]
                          Binary64.fresh))
                    (Binary64.v_rotation
                       (Binary64.update
                          (mkControls true false true true)
                          (Binary64.run
                             [mkControls true false true false;
                              mkControls true false true false]
                             Binary64.fresh)))
                  = true) by (vm_compute; reflexivity).
    split; [exact Hlt | ].
    intros Heq. rewrite Heq in Hlt. vm_compute in Hlt. discriminate Hlt.
Qed.

End SteeringClaims.

(** ** Coasting *)

Section CoastingClaims.

Import TruckController.

Variable s : t.
Variable deltaTime : R.
Hypothesis Htuned : tuned s.
Hypothesis Hgas : gas (controls s) = false.
Hypothesis Hbrake : brake (controls s) = false.

(** One frame of coasting: the speed is multiplied by the friction and
    then clamped. *)
Lemma coasting_frame n :
  speed (ticks (S n) deltaTime s)
  = MathUtils.clamp (speed (ticks n deltaTime s) * 0.98) (-0.25) 0.5.
Proof.
  cbn [ticks]. unfold update at 1; cbn [speed].
  rewrite ticks_controls, Hgas, Hbrake.
  destruct (ticks_tuned n deltaTime s Htuned) as (-> & _ & _ & -> & _).
  f_equal; lra.
Qed.

Lemma coasting_shrinks n :
  Rabs (speed (ticks (S n) deltaTime s))
  <= Rabs (speed (ticks n deltaTime s)).
Proof.
  rewrite coasting_frame. generalize (speed (ticks n deltaTime s)); intros v.
  unfold Rabs. repeat destruct Rcase_abs; clamp_cases; lra.
Qed.

Lemma coasting_keeps_sign n :
  (0 < speed s -> 0 < speed (ticks n deltaTime s))
  /\ (speed s < 0 -> speed (ticks n deltaTime s) < 0)
  /\ (speed s = 0 -> speed (ticks n deltaTime s) = 0).
Proof.
  induction n as [ | n (IHpos & IHneg & IHz)].
  - cbn. tauto.
  - rewrite coasting_frame.
    repeat split; intros H;
      [specialize (IHpos H) | specialize (IHneg H) | specialize (IHz H)];
      revert IHpos IHneg IHz;
      generalize (speed (ticks n deltaTime s)); intros v; intros;
      clamp_cases; lra.
Qed.

(** Inside the limits the clamp changes nothing: the speed after [n]
    frames of coasting is the starting speed times [0.98 ^ n]. *)
Lemma coasting_closed_form n :
  -0.25 <= speed s <= 0.5 ->
  speed (ticks n deltaTime s) = speed s * 0.98 ^ n.
Proof.
  intros Hin.
  assert (H : speed (ticks n deltaTime s) = speed s * 0.98 ^ n
              /\ -0.25 <= speed (ticks n deltaTime s) <= 0.5).
  { induction n as [ | n [IH Hr] ].
    - cbn. split; lra.
    - rewrite coasting_frame. rewrite clamp_inside by lra.
      split; [ | lra]. rewrite IH. cbn [pow]. ring. }
  apply H.
Qed.

End CoastingClaims.

(** *** Coasting on binary64 numbers *)

Lemma binary64_ticks_add a b gas brake speed :
  Binary64.ticks (a + b) gas brake speed
  = Binary64.ticks a gas brake (Binary64.ticks b gas brake speed).
Proof. induction a as [ | a IH]; [reflexivity | ]. cbn. now rewrite IH. Qed.

Lemma check_frame_speed n speed flag :
  fst (Nat.iter n Binary64.check_frame (speed, flag))
  = Binary64.ticks n false false speed.
Proof.
  induction n as [ | n IH]; [reflexivity | ].
  rewrite Nat.iter_succ. unfold Binary64.check_frame at 1.
  cbn [fst Binary64.ticks]. now rewrite IH.
Qed.

Lemma check_frame_sound n speed :
  snd (Nat.iter n Binary64.check_frame (speed, true)) = true ->
  forall m, (m < n)%nat ->
    Binary64.coasts_well (Binary64.ticks m false false speed)
                         (Binary64.ticks (S m) false false speed)
    = true.
Proof.
  induction n as [ | n IH]; intros Hall m Hm; [inversion Hm | ].
  rewrite Nat.iter_succ in Hall. unfold Binary64.check_frame at 1 in Hall.
  cbn [snd] in Hall. apply andb_true_iff in Hall as [Hbefore Hlast].
  rewrite check_frame_speed in Hlast.
  destruct (Nat.eq_dec m n) as [-> | Hne]; [exact Hlast | ].
  apply IH; [exact Hbefore | lia].
Qed.

(** A coasting run whose first [frames] frames were checked one by one
    and which then sits on a speed that coasting leaves as it is. *)
Lemma checked_coasting_run frames start stall :
  Binary64.checked_coasting frames start = (stall, true) ->
  Binary64.update_speed false false stall = stall ->
  Binary64.coasts_well stall stall = true ->
  forall n,
    Binary64.coasts_well (Binary64.ticks n false false start)
                         (Binary64.ticks (S n) false false start)
    = true
    /\ ((frames <= N.of_nat n)%N ->
        Binary64.ticks n false false start = stall).
Proof.
  unfold Binary64.checked_coasting. rewrite N2Nat.inj_iter.
  set (K := N.to_nat frames). intros Hrun Hfix Hwell n.
  assert (HK : Binary64.ticks K false false start = stall)
    by (rewrite <- check_frame_speed with (flag := true); now rewrite Hrun).
  assert (Hfrom : forall k,
             Binary64.ticks (k + K) false false start = stall).
  { intros k. rewrite binary64_ticks_add, HK.
    induction k as [ | k IH]; [reflexivity | ]. cbn. now rewrite IH. }
  assert (Hge : (K <= n)%nat -> Binary64.ticks n false false start = stall).
  { intros Hle. replace n with ((n - K) + K)%nat by apply Nat.sub_add, Hle.
    apply Hfrom. }
  split.
  - destruct (Nat.lt_ge_cases n K) as [Hlt | Hle].
    + apply (check_frame_sound K); [now rewrite Hrun | exact Hlt].
    + cbn [Binary64.ticks]. now rewrite (Hge Hle), Hfix.
  - intros Hle. apply Hge. subst K. lia.
Qed.

(** C9, as the code has it.  With gas and brake both released each
    [update] multiplies the speed by the friction [0.98], a coefficient
    strictly between 0 and 1, and clamps it (the clamp changes nothing
    when the speed was inside the limits, as it is in every reachable
    state).  From any starting speed the magnitude never grows from one
    frame to the next and the speed keeps its sign: positive stays
    positive, negative stays negative, 0 stays 0.  On binary64 numbers
    the decay does not arrive at 0: coasting from top
    speed [0.5], and from full reverse [-0.25], every frame leaves the
    magnitude as it is or lower and the speed on its side of 0, and from
    frame 36650, respectively 36615, on the speed stays at the subnormal
    [3 * 2 ^ -1071], respectively its negative, which coasting no longer
    changes. *)
Theorem coasting_decays_monotonically :
  (forall (s : TruckController.t) (deltaTime : R),
      TruckController.tuned s ->
      TruckController.gas (TruckController.controls s) = false ->
      TruckController.brake (TruckController.controls s) = false ->
      let speed_after n :=
        TruckController.speed (TruckController.ticks n deltaTime s) in
      0 < TruckController.friction s < 1
      /\ (- TruckController.maxSpeed s * 0.5 <= TruckController.speed s
                                             <= TruckController.maxSpeed s ->
          forall n,
            speed_after (S n) = speed_after n * TruckController.friction s)
      /\ (forall n, Rabs (speed_after (S n)) <= Rabs (speed_after n))
      /\ (forall n,
            (0 < TruckController.speed s -> 0 < speed_after n)
            /\ (TruckController.speed s < 0 -> speed_after n < 0)
            /\ (TruckController.speed s = 0 -> speed_after n = 0)))
  /\ (Binary64.update_speed false false Binary64.stalled = Binary64.stalled
      /\ PrimFloat.ltb PrimFloat.zero Binary64.stalled = true
      /\ forall n,
           let forward := Binary64.ticks n false false Binary64.maxSpeed in
           let backward :=
             Binary64.ticks n false false Binary64.reverse_limit in
           Binary64.coasts_well
             forward (Binary64.update_speed false false forward) = true
           /\ Binary64.coasts_well
                backward (Binary64.update_speed false false backward) = true
           /\ ((36650 <= N.of_nat n)%N -> forward = Binary64.stalled)
           /\ ((36615 <= N.of_nat n)%N ->
               backward = PrimFloat.opp Binary64.stalled)).
Proof.
  split.
  - intros s deltaTime Ht Hg Hb speed_after.
    pose proof Ht as (Hm & _ & _ & Hf & _).
    split; [rewrite Hf; lra | ].
    split.
    { rewrite Hm, Hf. intros Hin n. subst speed_after. cbn beta.
      rewrite !(coasting_closed_form s deltaTime Ht Hg Hb) by lra.
      cbn [pow]; ring. }
    split.
    { intros n. apply (coasting_shrinks s deltaTime Ht Hg Hb n). }
    intros n. apply (coasting_keeps_sign s deltaTime Ht Hg Hb n).
  - split; [vm_compute; reflexivity | split; [vm_compute; reflexivity | ] ].
    intros n forward backward.
    destruct (checked_coasting_run 36650 Binary64.maxSpeed Binary64.stalled)
      with (n := n) as [Hwell Hstall];
      [vm_compute; reflexivity | vm_compute; reflexivity
       | vm_compute; reflexivity | ].
    destruct (checked_coasting_run 36615 Binary64.reverse_limit
                (PrimFloat.opp Binary64.stalled))
      with (n := n) as [Hwell' Hstall'];
      [vm_compute; reflexivity | vm_compute; reflexivity
       | vm_compute; reflexivity | ].
    repeat split; assumption.
Qed.

Lemma coasting_decays_monotonically_witness :
  let s := TruckController.run
             [TruckController.Input
                (TruckController.TouchStart TruckController.Gas);
              TruckController.Tick 0.016; TruckController.Tick 0.016;
              TruckController.Input
                (TruckController.TouchEnd TruckController.Gas)]
             (TruckController.constructor Truck.constructor) in
  0 < TruckController.speed s
  /\ Rabs (TruckController.speed (TruckController.ticks 2 0.016 s))
     <= Rabs (TruckController.speed (TruckController.ticks 1 0.016 s))
  /\ 0 < TruckController.speed (TruckController.ticks 3 0.016 s).
Proof.
  intros s.
  assert (Hpos : 0 < TruckController.speed s)
    by (subst s; cbn; clamp_cases; lra).
  destruct (proj1 coasting_decays_monotonically s 0.016
              (reachable_tuned _ (reachable_run _ _)) eq_refl eq_refl)
    as (_ & _ & Hmono & Hsign).
  split; [exact Hpos | ].
  split; [apply (Hmono 1%nat) | apply (Hsign 3%nat), Hpos].
Defined.

(** C9, as stated, fails on the code's numbers: the decay stops short of
    0.  Coasting from top speed, which 50 frames of gas reach exactly, the
    speed is the subnormal [3 * 2 ^ -1071] after 36650 frames; one more
    frame multiplies it by [0.98] and rounds the product back to the same
    number, so from there on the speed is neither lowered nor brought any
    nearer to 0. *)
Lemma coasting_stalls_above_zero :
  let top := Binary64.ticks 50 true false Binary64.rest in
  let low := Binary64.ticks (N.to_nat 36650) false false top in
  top = Binary64.maxSpeed
  /\ low = Binary64.stalled
  /\ PrimFloat.ltb PrimFloat.zero low = true
  /\ Binary64.update_speed false false low = low.
Proof.
  assert (Htop : Binary64.ticks 50 true false Binary64.rest
                 = Binary64.maxSpeed) by (vm_compute; reflexivity).
  assert (Hlow : Binary64.ticks (N.to_nat 36650) false false Binary64.maxSpeed
                 = Binary64.stalled).
  { rewrite <- check_frame_speed with (flag := true).
    rewrite <- N2Nat.inj_iter. vm_compute. reflexivity. }
  cbn zeta. rewrite Htop, Hlow.
  repeat split; vm_compute; reflexivity.
Qed.

(** ** The input latch *)

Section LatchClaims.

Import TruckController InputSources.

Lemma get_set_same n v c : get n (set n v c) = v.
Proof. now destruct n. Qed.

Lemma get_set_other n m v c : m <> n -> get n (set m v c) = get n c.
Proof. intros Hne. destruct n, m; try reflexivity; now elim Hne. Qed.

Lemma ControlName_eqb_eq a b : ControlName_eqb a b = true -> a = b.
Proof. destruct a, b; intros H; try reflexivity; discriminate H. Qed.



(** Every listener writes one flag at most: the one its source is bound
    to, with the polarity of the event. *)
Lemma handle_writes ev c :
  handle ev c
  = match bound (fst (source_of ev)) with
    | Some m => set m (snd (source_of ev)) c
    | None => c
    end.
Proof. destruct ev; reflexivity. Qed.

Lemma latch_snoc events ev c :
  latch (events ++ [ev]) c = handle ev (latch events c).
Proof. unfold latch. now rewrite fold_left_app. Qed.






End LatchClaims.

(** ** The orbit camera *)

Section CameraClaims.

Import CameraController.

Lemma lerp_distanceToSquared target alpha v :
  Vector3.distanceToSquared target (Vector3.lerp target alpha v)
  = (1 - alpha) * (1 - alpha) * Vector3.distanceToSquared target v.
Proof. unfold Vector3.distanceToSquared, Vector3.lerp; cbn. ring. Qed.

Lemma distanceToSquared_nonneg w v : 0 <= Vector3.distanceToSquared w v.
Proof.
  unfold Vector3.distanceToSquared.
  repeat apply Rplus_le_le_0_compat; apply Rle_0_sqr.
Qed.

Lemma lerp_distanceTo target alpha v :
  0 <= alpha <= 1 ->
  Vector3.distanceTo target (Vector3.lerp target alpha v)
  = (1 - alpha) * Vector3.distanceTo target v.
Proof.
  intros Ha. unfold Vector3.distanceTo.
  rewrite lerp_distanceToSquared.
  rewrite sqrt_mult by (try apply distanceToSquared_nonneg; nra).
  rewrite sqrt_square by lra. reflexivity.
Qed.

(** C6.  [update] aims at the point
    [targetPosition - distance * cos(angleV) * (sin(total), 0, cos(total))
     + (0, distance * sin(angleV), 0)] with
    [total = targetRotation + angleH], and moves the camera position by
    [lerp] with the fixed factor [0.1] towards it.  The new position is the
    point [0.9 * old + 0.1 * target] of the segment from the old position
    to the target, and its distance to the target is [0.9] times the old
    distance, so never larger. *)
Theorem camera_update_lerps_towards_target
    (s : t) (targetPosition : Vector3.t) (targetRotation : R) :
  let total := targetRotation + angleH s in
  let target := targetCameraPos targetPosition targetRotation s in
  let old := cam_position (camera s) in
  let new := cam_position (camera (update targetPosition targetRotation s)) in
  Vector3.x target
  = Vector3.x targetPosition - distance s * cos (angleV s) * sin total
  /\ Vector3.y target
     = Vector3.y targetPosition - distance s * cos (angleV s) * 0
       + distance s * sin (angleV s)
  /\ Vector3.z target
     = Vector3.z targetPosition - distance s * cos (angleV s) * cos total
  /\ new = Vector3.lerp target 0.1 old
  /\ (exists k, 0 <= k <= 1
        /\ Vector3.x new = (1 - k) * Vector3.x old + k * Vector3.x target
        /\ Vector3.y new = (1 - k) * Vector3.y old + k * Vector3.y target
        /\ Vector3.z new = (1 - k) * Vector3.z old + k * Vector3.z target)
  /\ Vector3.distanceTo target new = 0.9 * Vector3.distanceTo target old
  /\ Vector3.distanceTo target new <= Vector3.distanceTo target old.
Proof.
  intros total target old new.
  assert (Hnew : new = Vector3.lerp target 0.1 old) by reflexivity.
  assert (Hdist : Vector3.distanceTo target new
                  = 0.9 * Vector3.distanceTo target old).
  { rewrite Hnew, lerp_distanceTo by lra. lra. }
  split; [subst target total; cbn; ring | ].
  split; [subst target total; cbn; ring | ].
  split; [subst target total; cbn; ring | ].
  split; [exact Hnew | ].
  split.
  { exists 0.1. rewrite Hnew. cbn. repeat split; lra. }
  split; [exact Hdist | ].
  rewrite Hdist.
  assert (0 <= Vector3.distanceTo target old) by apply sqrt_pos.
  lra.
Qed.

Lemma three_below_PI : 3 < PI.
Proof. pose proof PI2_3_2. lra. Qed.

(** The tilt limits are assigned by the constructor only. *)
Lemma reachable_tilt_limits s :
  reachable s -> minAngleV s = 0.1 /\ maxAngleV s = PI / 3.
Proof.
  induction 1 as [camera0 | a s _ IH].
  - now split.
  - destruct a as [ev | p r | ]; [ | exact IH | exact IH].
    destruct ev as [b cx cy | cx cy | b | | ts | ts | ts | dy]; cbn;
      unfold mousedown, mousemove, mouseup, touchstart, touchmove, touchend;
      repeat match goal with
             | |- context [if ?b then _ else _] => destruct b
             | |- context [match ?l with [] => _ | _ :: _ => _ end] =>
               destruct l
             end; exact IH.
Qed.

(** A handler either leaves the tilt as it was or stores a clamped value. *)
Lemma handle_angleV ev s :
  angleV (handle ev s) = angleV s
  \/ exists v, angleV (handle ev s)
               = Rmax (minAngleV s) (Rmin (maxAngleV s) v).
Proof.
  destruct ev as [b cx cy | cx cy | b | | ts | ts | ts | dy]; cbn;
    unfold mousedown, mousemove, mouseup, touchstart, touchmove, touchend;
    repeat match goal with
           | |- context [if ?b then _ else _] => destruct b
           | |- context [match ?l with [] => _ | _ :: _ => _ end] =>
             destruct l
           end;
    try (left; reflexivity); right; eexists; reflexivity.
Qed.

Lemma tilt_clamped lo hi v : lo <= hi -> lo <= Rmax lo (Rmin hi v) <= hi.
Proof. intros Hle. apply (clamp_within v lo hi Hle). Qed.

Lemma reachable_tilt_within s :
  reachable s -> minAngleV s <= angleV s <= maxAngleV s.
Proof.
  intros Hr. pose proof three_below_PI as Hpi.
  induction Hr as [camera0 | a s Hr IH].
  - cbn. lra.
  - destruct (reachable_tilt_limits _ (reachable_step a s Hr)) as [Hlo Hhi].
    destruct (reachable_tilt_limits s Hr) as [Hlo0 Hhi0].
    rewrite Hlo, Hhi. rewrite Hlo0, Hhi0 in IH.
    destruct a as [ev | p r | ]; cbn [step].
    + destruct (handle_angleV ev s) as [-> | [v ->] ]; [exact IH | ].
      rewrite Hlo0, Hhi0. apply tilt_clamped. lra.
    + exact IH.
    + cbn. lra.
Qed.

(** C7.  In every state the rig can reach, whatever mouse, touch and wheel
    events, updates and resets came before, the vertical angle lies in
    [[minAngleV, maxAngleV]] = [[0.1, PI / 3]]; the constructor and [reset]
    both store [0.3], which lies in the interval.  While a drag is on, the
    [mousemove] and [touchmove] handlers store the clamp of the angle plus
    the scaled vertical delta, so a delta that overshoots a bound lands on
    the bound. *)
Theorem camera_tilt_within_bounds :
  (forall s, reachable s ->
             minAngleV s <= angleV s <= maxAngleV s
             /\ minAngleV s = 0.1 /\ maxAngleV s = PI / 3)
  /\ (forall camera0 s,
        angleV (constructor camera0) = 0.3 /\ angleV (reset s) = 0.3
        /\ 0.1 <= 0.3 <= PI / 3)
  /\ (forall s cx cy,
        isRotating s = true ->
        angleV (mousemove cx cy s)
        = Rmax (minAngleV s)
            (Rmin (maxAngleV s) (angleV s + (cy - lastY s) * sensitivity s)))
  /\ (forall s touch other,
        isTouchRotating s = true ->
        angleV (touchmove [touch; other] s)
        = Rmax (minAngleV s)
            (Rmin (maxAngleV s)
               (angleV s + (clientY touch - touchStartY s) * sensitivity s))).
Proof.
  split; [ | split; [ | split] ].
  - intros s Hr. split; [now apply reachable_tilt_within | ].
    now apply reachable_tilt_limits.
  - intros camera0 s. pose proof three_below_PI. repeat split; lra.
  - intros s cx cy Hrot. unfold mousemove. now rewrite Hrot.
  - intros s touch other Htouch. unfold touchmove. now rewrite Htouch.
Qed.

Lemma camera_tilt_within_bounds_witness :
  let s := run [Input (MouseDown 2 100 100); Input (MouseMove 120 5000);
                Follow (Vector3.mk 0 0 1) 0;
                Input (TouchStart [mkTouch 10 10; mkTouch 50 50]);
                Input (TouchMove [mkTouch 10 (-9000); mkTouch 50 50])]
               (constructor game_camera) in
  minAngleV s <= angleV s <= maxAngleV s.
Proof.
  intros s.
  apply (proj1 camera_tilt_within_bounds s).
  subst s. unfold run; cbn [fold_left].
  repeat apply reachable_step. apply reachable_constructor.
Defined.

End CameraClaims.

(** * Further properties of the controller, the rig and their collaborators *)

(** ** Reset, the mesh and the wheels *)

Section MeshProperties.

Import TruckController Poses.

(** X1.  [reset] puts every reachable controller back into exactly the
    state the constructor builds around the same truck mesh: position and
    velocity at the origin, heading 0, speed 0, all four controls released,
    the tuning constants as they were.  The mesh is not touched. *)
Theorem reset_restores_constructor_state (s : t) :
  reachable s ->
  reset s = constructor (truck s) /\ truck (reset s) = truck s.
Proof.
  intros Hr. destruct (reachable_tuned s Hr) as (Hm & Ha & Hb & Hf & Ht).
  split; [ | reflexivity].
  unfold reset, constructor. rewrite Hm, Ha, Hb, Hf, Ht. reflexivity.
Qed.

Lemma reset_restores_constructor_state_witness :
  let s := run [Input (TouchStart Gas); Tick 0.016; Input (TouchStart Right);
                Tick 0.016; Tick 0.016]
               (constructor Truck.constructor) in
  reset s = constructor (truck s) /\ truck (reset s) = truck s.
Proof.
  intros s. apply (reset_restores_constructor_state s). apply reachable_run.
Defined.

Lemma update_mesh_in_sync deltaTime s : mesh_in_sync (update deltaTime s).
Proof.
  unfold mesh_in_sync, update.
  cbn [truck position rotation Truck.updateWheels Truck.update
       Truck.group_position Truck.group_rotation_y].
  split; [ | reflexivity].
  unfold Vector3.copy. now destruct (Vector3.set_x _ _).
Qed.

(** X2.  After every [update] the mesh shows exactly the controller's
    position and heading.  Listeners do not disturb that; [reset] moves the
    controller to the origin and leaves the mesh where it was.  So in every
    reachable state the mesh is in step with the controller, or the
    controller stands at the origin with heading 0 and speed 0 and the
    mesh still shows the pose from before. *)
Theorem mesh_follows_controller :
  (forall s deltaTime, mesh_in_sync (update deltaTime s))
  /\ (forall s, reachable s -> mesh_in_sync s \/ parked_at_origin s)
  /\ (forall s deltaTime,
        Truck.group_position (truck (reset (update deltaTime s)))
        = position (update deltaTime s)).
Proof.
  split; [ | split].
  - intros s deltaTime. apply update_mesh_in_sync.
  - induction 1 as [truck0 | a s _ IH].
    + right. repeat split.
    + destruct a as [ev | deltaTime | ].
      * exact IH.
      * left. apply update_mesh_in_sync.
      * right. repeat split.
  - intros s deltaTime. apply (update_mesh_in_sync deltaTime s).
Qed.

Lemma mesh_follows_controller_witness :
  let s := run [Input (TouchStart Gas); Tick 0.016; Tick 0.016]
               (constructor Truck.constructor) in
  mesh_in_sync s \/ parked_at_origin s.
Proof.
  intros s. apply (proj1 (proj2 mesh_follows_controller) s).
  apply reachable_run.
Defined.

Lemma step_wheels a s :
  Truck.wheels (truck (step a s))
  = match a with
    | Tick deltaTime =>
      map (fun w => w + speed (update deltaTime s) * 2.0)
          (Truck.wheels (truck s))
    | _ => Truck.wheels (truck s)
    end.
Proof. destruct a; reflexivity. Qed.

(** X3.  Every [update] turns each wheel by twice the new speed; nothing
    else turns a wheel, and no action adds or removes one.  On the truck
    the game builds, the four wheels therefore show one common angle in
    every reachable state. *)
Theorem wheels_turn_together :
  (forall s deltaTime,
      Truck.wheels (truck (update deltaTime s))
      = map (fun w => w + 2 * speed (update deltaTime s))
            (Truck.wheels (truck s)))
  /\ (forall s a,
        List.length (Truck.wheels (truck (step a s)))
        = List.length (Truck.wheels (truck s)))
  /\ (forall actions,
        exists angle,
          Truck.wheels
            (truck (run actions (constructor Truck.constructor)))
          = [angle; angle; angle; angle]).
Proof.
  split; [ | split].
  - intros s deltaTime.
    change (update deltaTime s) with (step (Tick deltaTime) s) at 1.
    rewrite step_wheels. apply map_ext. intros w. lra.
  - intros s a. rewrite step_wheels.
    destruct a; try reflexivity. apply length_map.
  - intros actions. induction actions as [ | a l [angle IH] ] using rev_ind.
    + now exists 0.
    + rewrite run_app. cbn [run fold_left].
      fold (run l (constructor Truck.constructor)).
      rewrite step_wheels, IH.
      destruct a as [ev | deltaTime | ]; cbn [map]; eexists; reflexivity.
Qed.

End MeshProperties.

(** ** How far one frame can move and turn the truck *)

Section MotionProperties.

Import TruckController Poses.

Lemma sin_cos_square a v :
  (sin a * v) * (sin a * v) + (cos a * v) * (cos a * v) = v * v.
Proof.
  pose proof (sin2_cos2 a) as H. unfold Rsqr in H.
  replace (sin a * v * (sin a * v) + cos a * v * (cos a * v))
    with ((sin a * sin a + cos a * cos a) * (v * v)) by ring.
  rewrite H. ring.
Qed.

(** X4.  In every reachable state the velocity vector has the length of the
    speed: its squared length is the square of [speed]. *)
Theorem velocity_length_is_speed (s : t) :
  reachable s -> lengthSq (velocity s) = speed s * speed s.
Proof.
  intros Hr.
  destruct (reachable_velocity_along_heading s Hr) as [Hx Hz].
  destruct (reachable_grounded s Hr) as [_ Hy].
  unfold lengthSq. rewrite Hx, Hy, Hz.
  rewrite <- (sin_cos_square (rotation s) (speed s)). ring.
Qed.

Lemma velocity_length_is_speed_witness :
  let s := run [Input (TouchStart Brake); Tick 0.016; Input (TouchStart Left);
                Tick 0.016; Tick 0.016]
               (constructor Truck.constructor) in
  lengthSq (velocity s) = speed s * speed s.
Proof.
  intros s. apply (velocity_length_is_speed s). apply reachable_run.
Defined.

Lemma clamp_step_short x v :
  -3 <= x <= 3 ->
  (MathUtils.clamp (x + v) (-3) 3 - x) * (MathUtils.clamp (x + v) (-3) 3 - x)
  <= v * v.
Proof. intros Hx. clamp_cases; nra. Qed.

Lemma update_displacement_squared deltaTime s :
  reachable s ->
  Vector3.distanceToSquared (position s) (position (update deltaTime s))
  <= speed (update deltaTime s) * speed (update deltaTime s).
Proof.
  intros Hr.
  destruct (reachable_grounded s Hr) as [_ Hy].
  pose proof (reachable_in_lane s Hr) as Hx. unfold in_lane in Hx.
  set (s' := update deltaTime s).
  assert (Hpx : Vector3.x (position s')
                = MathUtils.clamp
                    (Vector3.x (position s) + sin (rotation s') * speed s')
                    (-3) 3) by reflexivity.
  assert (Hpy : Vector3.y (position s')
                = Vector3.y (position s) + Vector3.y (velocity s))
    by reflexivity.
  assert (Hpz : Vector3.z (position s')
                = Vector3.z (position s) + cos (rotation s') * speed s')
    by reflexivity.
  unfold Vector3.distanceToSquared. rewrite Hpx, Hpy, Hpz, Hy.
  pose proof (clamp_step_short (Vector3.x (position s))
                (sin (rotation s') * speed s') Hx) as Hshort.
  pose proof (sin_cos_square (rotation s') (speed s')) as Hsq.
  nra.
Qed.

(** X5.  One [update] moves a reachable truck by at most the new speed, so
    by at most [maxSpeed = 0.5]: the distance between the old and the new
    position is at most [|speed|], the lane clamp only ever shortening the
    step. *)
Theorem update_moves_at_most_speed (s : t) (deltaTime : R) :
  reachable s ->
  Vector3.distanceTo (position s) (position (update deltaTime s))
  <= Rabs (speed (update deltaTime s))
  /\ Rabs (speed (update deltaTime s)) <= 0.5.
Proof.
  intros Hr. split.
  - unfold Vector3.distanceTo.
    rewrite <- sqrt_Rsqr_abs. apply sqrt_le_1_alt.
    now apply update_displacement_squared.
  - destruct (reachable_tuned s Hr) as (Hm & _).
    pose proof (update_speed_within deltaTime s) as Hb.
    rewrite Hm in Hb. unfold Rabs. destruct Rcase_abs; lra.
Qed.

Lemma update_moves_at_most_speed_witness :
  let s := run [Input (TouchStart Gas); Input (TouchStart Left); Tick 0.016;
                Tick 0.016; Tick 0.016]
               (constructor Truck.constructor) in
  Vector3.distanceTo (position s) (position (update 0.016 s)) <= 0.5.
Proof.
  intros s.
  destruct (update_moves_at_most_speed s 0.016 (reachable_run _ _))
    as [Hd Hs].
  exact (Rle_trans _ _ _ Hd Hs).
Defined.

(** X6.  One [update] turns a reachable truck by at most
    [turnSpeed * |speed| / maxSpeed], so by at most [0.03] radians, and by
    at most [0.015] while reversing. *)
Theorem update_turns_at_most_turnSpeed (s : t) (deltaTime : R) :
  reachable s ->
  let s' := update deltaTime s in
  Rabs (rotation s' - rotation s) <= turnSpeed s * Rabs (speed s') / maxSpeed s
  /\ Rabs (rotation s' - rotation s) <= 0.03
  /\ (speed s' < 0 -> Rabs (rotation s' - rotation s) <= 0.015).
Proof.
  intros Hr s'.
  destruct (reachable_tuned s Hr) as (Hm & _ & _ & _ & Ht).
  pose proof (update_speed_within deltaTime s) as Hb. fold s' in Hb.
  rewrite Hm in Hb. specialize (Hb ltac:(lra)).
  pose proof (update_rotation deltaTime s) as Hrot. fold s' in Hrot.
  rewrite Hm, Ht in *.
  assert (Hturn : Rabs (rotation s' - rotation s) <= 0.03 * Rabs (speed s') / 0.5).
  { pose proof (Rabs_pos (speed s')) as Hpos.
    destruct (Rlt_dec 0.01 (Rabs (speed s'))) as [Hgate | Hgate].
    - rewrite Hrot.
      replace (rotation s + 0.03 * (Rabs (speed s') / 0.5) * sign (speed s')
                 * steerInput (controls s) - rotation s)
        with (0.03 * (Rabs (speed s') / 0.5)
              * (sign (speed s') * steerInput (controls s))) by ring.
      assert (Hunit : Rabs (sign (speed s') * steerInput (controls s)) <= 1).
      { unfold sign.
        destruct (steerInput_values (controls s)) as [-> | [-> | ->] ];
          destruct (Rlt_dec 0 (speed s'));
          try destruct (Rlt_dec (speed s') 0);
          unfold Rabs; destruct Rcase_abs; lra. }
      rewrite Rabs_mult.
      rewrite (Rabs_right (0.03 * (Rabs (speed s') / 0.5))) by lra.
      nra.
    - rewrite Hrot. replace (rotation s - rotation s) with 0 by ring.
      rewrite Rabs_R0. lra. }
  assert (Habs : Rabs (speed s') <= 0.5)
    by (unfold Rabs; destruct Rcase_abs; lra).
  split; [exact Hturn | split; [lra | ] ].
  intros Hneg. rewrite (Rabs_left (speed s')) in Hturn by exact Hneg. lra.
Qed.

Lemma update_turns_at_most_turnSpeed_witness :
  let s := run [Input (TouchStart Gas); Input (TouchStart Left); Tick 0.016;
                Tick 0.016]
               (constructor Truck.constructor) in
  Rabs (rotation (update 0.016 s) - rotation s) <= 0.03.
Proof.
  intros s.
  apply (update_turns_at_most_turnSpeed s 0.016). apply reachable_run.
Defined.

End MotionProperties.

(** ** The pedals from any reachable state *)

Section PedalProperties.

Import TruckController Poses.

Lemma gas_frames s deltaTime n :
  reachable s -> gas (controls s) = true ->
  speed (ticks n deltaTime s) = Rmin 0.5 (speed s + 0.01 * INR n).
Proof.
  intros Hr Hg. pose proof (reachable_speed_within s Hr) as Hin.
  pose proof (reachable_tuned s Hr) as Ht.
  destruct Ht as (Hm & Ha & _). rewrite Hm in Hin.
  induction n as [ | n IH].
  - cbn. unfold Rmin. destruct Rle_dec; lra.
  - rewrite S_INR. cbn [ticks]. unfold update at 1. cbn [speed].
    rewrite ticks_controls, Hg, IH.
    destruct (ticks_tuned n deltaTime s (reachable_tuned s Hr))
      as (-> & -> & _).
    pose proof (pos_INR n). clamp_cases; lra.
Qed.

(** X7.  The gas has priority over the brake.  From any reachable state
    with the gas held, whether or not the brake is held too, the speed
    after [n] frames is [min(0.5, speed + 0.01 * n)]: it never falls, and
    after 75 frames it is exactly [maxSpeed] wherever it started. *)
Theorem gas_overrides_brake (s : t) (deltaTime : R) :
  reachable s -> gas (controls s) = true ->
  forall n,
    speed (ticks n deltaTime s) = Rmin 0.5 (speed s + 0.01 * INR n)
    /\ speed (ticks n deltaTime s) <= speed (ticks (S n) deltaTime s)
    /\ ((75 <= n)%nat -> speed (ticks n deltaTime s) = maxSpeed s).
Proof.
  intros Hr Hg n.
  pose proof (reachable_speed_within s Hr) as Hin.
  destruct (reachable_tuned s Hr) as (Hm & _). rewrite Hm in *.
  rewrite !gas_frames by assumption. rewrite S_INR.
  pose proof (pos_INR n). repeat split.
  - unfold Rmin; repeat destruct Rle_dec; lra.
  - intros Hge. apply le_INR in Hge.
    replace (INR 75) with 75 in Hge by (simpl; lra).
    unfold Rmin; destruct Rle_dec; lra.
Qed.

Lemma gas_overrides_brake_witness :
  let s := run [Input (TouchStart Brake); Tick 0.016; Tick 0.016;
                Input (KeyDown (mkKey "ArrowUp" "ArrowUp"))]
               (constructor Truck.constructor) in
  brake (controls s) = true /\ speed (ticks 75 0.016 s) = maxSpeed s.
Proof.
  intros s. split; [reflexivity | ].
  apply (gas_overrides_brake s 0.016 (reachable_run _ _) eq_refl 75%nat).
  apply le_n.
Defined.

Lemma brake_frames s deltaTime n :
  reachable s -> gas (controls s) = false -> brake (controls s) = true ->
  speed (ticks n deltaTime s) = Rmax (-0.25) (speed s - 0.02 * INR n).
Proof.
  intros Hr Hg Hb. pose proof (reachable_speed_within s Hr) as Hin.
  destruct (reachable_tuned s Hr) as (Hm & _). rewrite Hm in Hin.
  induction n as [ | n IH].
  - cbn. unfold Rmax. destruct Rle_dec; lra.
  - rewrite S_INR. cbn [ticks]. unfold update at 1. cbn [speed].
    rewrite ticks_controls, Hg, Hb, IH.
    destruct (ticks_tuned n deltaTime s (reachable_tuned s Hr))
      as (-> & _ & -> & _).
    pose proof (pos_INR n). clamp_cases; lra.
Qed.

(** X8.  The brake is also the reverse gear.  From any reachable state
    with the brake held and the gas released the speed after [n] frames is
    [max(-0.25, speed - 0.02 * n)]: it does not stop at 0 but goes on into
    reverse, which it has reached after 26 frames at the latest, and after
    38 frames it is exactly [-maxSpeed * 0.5] wherever it started. *)
Theorem brake_runs_into_reverse (s : t) (deltaTime : R) :
  reachable s -> gas (controls s) = false -> brake (controls s) = true ->
  forall n,
    speed (ticks n deltaTime s) = Rmax (-0.25) (speed s - 0.02 * INR n)
    /\ speed (ticks (S n) deltaTime s) <= speed (ticks n deltaTime s)
    /\ ((26 <= n)%nat -> speed (ticks n deltaTime s) < 0)
    /\ ((38 <= n)%nat -> speed (ticks n deltaTime s) = - maxSpeed s * 0.5).
Proof.
  intros Hr Hg Hb n.
  pose proof (reachable_speed_within s Hr) as Hin.
  destruct (reachable_tuned s Hr) as (Hm & _). rewrite Hm in *.
  rewrite !brake_frames by assumption. rewrite S_INR.
  pose proof (pos_INR n). repeat split.
  - unfold Rmax; repeat destruct Rle_dec; lra.
  - intros Hge. apply le_INR in Hge.
    replace (INR 26) with 26 in Hge by (simpl; lra).
    unfold Rmax; destruct Rle_dec; lra.
  - intros Hge. apply le_INR in Hge.
    replace (INR 38) with 38 in Hge by (simpl; lra).
    unfold Rmax; destruct Rle_dec; lra.
Qed.

Lemma brake_runs_into_reverse_witness :
  let s := run [Input (TouchStart Gas); Tick 0.016; Tick 0.016; Tick 0.016;
                Input (TouchEnd Gas); Input (TouchStart Brake)]
               (constructor Truck.constructor) in
  speed (ticks 38 0.016 s) = - maxSpeed s * 0.5.
Proof.
  intros s.
  apply (brake_runs_into_reverse s 0.016 (reachable_run _ _)
           eq_refl eq_refl 38%nat).
  apply le_n.
Defined.

End PedalProperties.

(** ** Driving without steering *)

Section StraightProperties.

Import TruckController Poses.

Variable s : t.
Variable deltaTime : R.
Hypothesis Hleft : left (controls s) = false.
Hypothesis Hright : right (controls s) = false.

Lemma unsteered_rotation n : rotation (ticks n deltaTime s) = rotation s.
Proof.
  induction n as [ | n IH]; [reflexivity | ].
  cbn [ticks]. unfold update at 1. cbn [rotation].
  rewrite ticks_controls, Hleft, Hright, IH.
  now destruct Rlt_dec.
Qed.

Lemma unsteered_z n :
  Vector3.z (position (ticks (S n) deltaTime s))
  = Vector3.z (position (ticks n deltaTime s))
    + cos (rotation s) * speed (ticks (S n) deltaTime s).
Proof.
  rewrite <- (unsteered_rotation (S n)). reflexivity.
Qed.

Lemma unsteered_x n :
  reachable s -> rotation s = 0 ->
  Vector3.x (position (ticks n deltaTime s)) = Vector3.x (position s).
Proof.
  intros Hr H0. induction n as [ | n IH]; [reflexivity | ].
  pose proof (reachable_in_lane _ (ticks_reachable n deltaTime s Hr)) as Hx.
  unfold in_lane in Hx. rewrite <- IH.
  change (Vector3.x (position (ticks (S n) deltaTime s)))
    with (MathUtils.clamp
            (Vector3.x (position (ticks n deltaTime s))
             + sin (rotation (ticks (S n) deltaTime s))
               * speed (ticks (S n) deltaTime s)) (-3) 3).
  rewrite unsteered_rotation, H0, sin_0.
  rewrite clamp_inside by lra. ring.
Qed.

Lemma coasting_z n :
  reachable s -> gas (controls s) = false -> brake (controls s) = false ->
  Vector3.z (position (ticks n deltaTime s))
  = Vector3.z (position s)
    + cos (rotation s) * speed s * 49 * (1 - 0.98 ^ n).
Proof.
  intros Hr Hg Hb.
  pose proof (reachable_speed_within s Hr) as Hin.
  pose proof (reachable_tuned s Hr) as Ht.
  assert (Hm : maxSpeed s = 0.5) by apply Ht. rewrite Hm in Hin.
  induction n as [ | n IH].
  - cbn. ring.
  - rewrite unsteered_z, IH.
    rewrite (coasting_closed_form s deltaTime Ht Hg Hb (S n)) by lra.
    cbn [pow]. generalize (0.98 ^ n) (cos (rotation s)). intros q c. nra.
Qed.

End StraightProperties.

(** X9.  With both steer controls released the heading never changes,
    whatever the pedals do, and every frame advances [position.z] by
    [cos(heading) * speed].  A reachable truck heading straight on (heading
    0) keeps its [position.x]. *)
Theorem unsteered_truck_keeps_heading
    (s : TruckController.t) (deltaTime : R) :
  TruckController.left (TruckController.controls s) = false ->
  TruckController.right (TruckController.controls s) = false ->
  forall n,
    let at_frame k := TruckController.ticks k deltaTime s in
    TruckController.rotation (at_frame n) = TruckController.rotation s
    /\ Vector3.z (TruckController.position (at_frame (S n)))
       = Vector3.z (TruckController.position (at_frame n))
         + cos (TruckController.rotation s)
           * TruckController.speed (at_frame (S n))
    /\ (TruckController.reachable s -> TruckController.rotation s = 0 ->
        Vector3.x (TruckController.position (at_frame n))
        = Vector3.x (TruckController.position s)).
Proof.
  intros Hl Hr n at_frame. subst at_frame. cbn beta.
  split; [now apply unsteered_rotation | ].
  split; [now apply unsteered_z | ].
  now apply unsteered_x.
Qed.

Lemma unsteered_truck_keeps_heading_witness :
  let s := TruckController.holding TruckController.Gas Truck.constructor in
  TruckController.rotation (TruckController.ticks 60 0.016 s) = 0
  /\ Vector3.x (TruckController.position (TruckController.ticks 60 0.016 s))
     = 0.
Proof.
  intros s.
  destruct (unsteered_truck_keeps_heading s 0.016 eq_refl eq_refl 60%nat)
    as (Hrot & _ & Hx).
  split; [exact Hrot | ].
  apply Hx; [apply holding_reachable | reflexivity].
Defined.

(** X10.  Rolling out.  When a reachable truck has every control released,
    [n] frames later its [position.z] has advanced by
    [cos(heading) * speed * 49 * (1 - 0.98 ^ n)]: however long it coasts it
    rolls less than 49 times its speed further, so at most 24.5 from top
    speed. *)
Theorem coasting_distance_bounded
    (s : TruckController.t) (deltaTime : R) :
  TruckController.reachable s ->
  TruckController.controls s = TruckController.released ->
  forall n,
    let z_after k :=
      Vector3.z (TruckController.position
                   (TruckController.ticks k deltaTime s)) in
    z_after n
    = z_after 0%nat
      + cos (TruckController.rotation s) * TruckController.speed s * 49
        * (1 - 0.98 ^ n)
    /\ Rabs (z_after n - z_after 0%nat)
       <= 49 * Rabs (TruckController.speed s)
    /\ Rabs (z_after n - z_after 0%nat) <= 24.5.
Proof.
  intros Hr Hc n z_after. subst z_after. cbn beta.
  assert (Hz := coasting_z s deltaTime).
  rewrite Hc in Hz. specialize (Hz eq_refl eq_refl n Hr eq_refl eq_refl).
  cbn [TruckController.ticks].
  split; [exact Hz | ].
  rewrite Hz.
  replace (Vector3.z (TruckController.position s)
           + cos (TruckController.rotation s) * TruckController.speed s * 49
             * (1 - 0.98 ^ n) - Vector3.z (TruckController.position s))
    with (cos (TruckController.rotation s)
          * (TruckController.speed s * (49 * (1 - 0.98 ^ n)))) by ring.
  assert (Hq : 0 <= 1 - 0.98 ^ n <= 1).
  { assert (0 <= 0.98 ^ n) by (apply pow_le; lra).
    assert (0.98 ^ n <= 1) by (clear; induction n; cbn; lra).
    lra. }
  assert (Hcos : Rabs (cos (TruckController.rotation s)) <= 1).
  { pose proof (COS_bound (TruckController.rotation s)).
    unfold Rabs; destruct Rcase_abs; lra. }
  assert (Hv : Rabs (TruckController.speed s) <= 0.5).
  { pose proof (reachable_speed_within s Hr) as Hin.
    destruct (reachable_tuned s Hr) as (Hm & _). rewrite Hm in Hin.
    unfold Rabs; destruct Rcase_abs; lra. }
  assert (Hbound :
            Rabs (cos (TruckController.rotation s)
                  * (TruckController.speed s * (49 * (1 - 0.98 ^ n))))
            <= 49 * Rabs (TruckController.speed s)).
  { rewrite !Rabs_mult.
    rewrite (Rabs_right 49) by lra.
    rewrite (Rabs_right (1 - 0.98 ^ n)) by lra.
    pose proof (Rabs_pos (TruckController.speed s)) as Hv0.
    assert (Hx : 0 <= Rabs (TruckController.speed s) * (49 * (1 - 0.98 ^ n))
                 <= 49 * Rabs (TruckController.speed s)) by nra.
    apply Rle_trans
      with (1 * (Rabs (TruckController.speed s) * (49 * (1 - 0.98 ^ n))));
      [apply Rmult_le_compat_r; lra | lra]. }
  split; [exact Hbound | lra].
Qed.

Lemma coasting_distance_bounded_witness :
  let s := TruckController.run
             [TruckController.Input
                (TruckController.TouchStart TruckController.Gas);
              TruckController.Tick 0.016; TruckController.Tick 0.016;
              TruckController.Input
                (TruckController.TouchEnd TruckController.Gas)]
             (TruckController.constructor Truck.constructor) in
  Rabs (Vector3.z (TruckController.position
                     (TruckController.ticks 500 0.016 s))
        - Vector3.z (TruckController.position s))
  <= 24.5.
Proof.
  intros s.
  apply (coasting_distance_bounded s 0.016 (reachable_run _ _) eq_refl
           500%nat).
Defined.

(** ** More on the input latch *)

Section LatchProperties.

Import TruckController InputSources.

Lemma set_set_same n v w c : set n v (set n w c) = set n v c.
Proof. now destruct n. Qed.

Lemma set_set_other n m v w c :
  n <> m -> set n v (set m w c) = set m w (set n v c).
Proof. intros Hne. destruct n, m; try reflexivity; now elim Hne. Qed.

(** X11.  A listener writes one flag at most and writes it the same way
    however often it runs: for every event there is a control outside of
    which the flags keep their values, and handling the event twice leaves
    the controls as handling it once. *)
Theorem event_writes_one_flag (ev : Event) (c : Controls) :
  (exists n, forall m, m <> n -> get m (handle ev c) = get m c)
  /\ handle ev (handle ev c) = handle ev c.
Proof.
  rewrite !handle_writes.
  destruct (bound (fst (source_of ev))) as [n | ].
  - split.
    + exists n. intros m Hne. apply get_set_other. congruence.
    + apply set_set_same.
  - split; [ | reflexivity]. exists Gas. reflexivity.
Qed.

(** X12.  Events of sources bound to different controls can arrive in
    either order: the controls end up the same. *)
Theorem independent_events_commute (ev1 ev2 : Event) (c : Controls) :
  bound (fst (source_of ev1)) <> bound (fst (source_of ev2)) ->
  handle ev1 (handle ev2 c) = handle ev2 (handle ev1 c).
Proof.
  intros Hne. rewrite !handle_writes.
  destruct (bound (fst (source_of ev1))) as [n | ],
           (bound (fst (source_of ev2))) as [m | ]; try reflexivity.
  apply set_set_other. congruence.
Qed.

Lemma independent_events_commute_witness :
  handle (KeyDown (mkKey "a" "KeyA")) (handle (TouchEnd Gas) released)
  = handle (TouchEnd Gas) (handle (KeyDown (mkKey "a" "KeyA")) released).
Proof.
  apply (independent_events_commute
           (KeyDown (mkKey "a" "KeyA")) (TouchEnd Gas) released).
  discriminate.
Defined.

Lemma lower_ascii_idempotent a : lower_ascii (lower_ascii a) = lower_ascii a.
Proof.
  destruct a as [b0 b1 b2 b3 b4 b5 b6 b7].
  destruct b0, b1, b2, b3, b4, b5, b6, b7; reflexivity.
Qed.

Lemma toLowerCase_idempotent k : toLowerCase (toLowerCase k) = toLowerCase k.
Proof.
  induction k as [ | a k IH]; [reflexivity | ].
  cbn. now rewrite lower_ascii_idempotent, IH.
Qed.

(** X13.  The keyboard mapping reads [key] without regard to case and
    tries the controls in the order gas, brake, left, right.  An event
    names gas when its lower-cased [key] is [arrowup] or its [code] is
    [KeyW], brake for [arrowdown] or [KeyS], left for [arrowleft] or
    [KeyA], right for [arrowright] or [KeyD]; it is mapped to the first
    control in that order that it names and to nothing when it names none,
    and then neither listener changes a flag.  [keydown] sets the flag of
    the control the event is mapped to and [keyup] clears it.  An event is
    mapped as its lower-cased twin is. *)
Theorem keyboard_mapping (k c : string) :
  let names_gas := toLowerCase k = "arrowup"%string \/ c = "KeyW"%string in
  let names_brake :=
    toLowerCase k = "arrowdown"%string \/ c = "KeyS"%string in
  let names_left :=
    toLowerCase k = "arrowleft"%string \/ c = "KeyA"%string in
  let names_right :=
    toLowerCase k = "arrowright"%string \/ c = "KeyD"%string in
  key_control (mkKey k c) = key_control (mkKey (toLowerCase k) c)
  /\ (names_gas -> key_control (mkKey k c) = Some Gas)
  /\ (key_control (mkKey k "KeyW") = Some Gas
      /\ key_control (mkKey "ARROWUP" c) = Some Gas)
  /\ (key_control (mkKey k c) = Some Brake ->
      toLowerCase k <> "arrowup"%string /\ c <> "KeyW"%string
      /\ names_brake)
  /\ (key_control (mkKey k c) = None ->
      forall controls0, keydown (mkKey k c) controls0 = controls0
                        /\ keyup (mkKey k c) controls0 = controls0)
  /\ (key_control (mkKey k c) = Some Gas <-> names_gas)
  /\ (key_control (mkKey k c) = Some Brake <-> ~ names_gas /\ names_brake)
  /\ (key_control (mkKey k c) = Some Left <->
      ~ names_gas /\ ~ names_brake /\ names_left)
  /\ (key_control (mkKey k c) = Some Right <->
      ~ names_gas /\ ~ names_brake /\ ~ names_left /\ names_right)
  /\ (key_control (mkKey k c) = None <->
      ~ names_gas /\ ~ names_brake /\ ~ names_left /\ ~ names_right)
  /\ (forall n controls0,
        key_control (mkKey k c) = Some n ->
        keydown (mkKey k c) controls0 = set n true controls0
        /\ keyup (mkKey k c) controls0 = set n false controls0
        /\ get n (keydown (mkKey k c) controls0) = true
        /\ get n (keyup (mkKey k c) controls0) = false).
Proof.
  intros names_gas names_brake names_left names_right.
  assert (Hchain :
            (key_control (mkKey k c) = Some Gas <-> names_gas)
            /\ (key_control (mkKey k c) = Some Brake <->
                ~ names_gas /\ names_brake)
            /\ (key_control (mkKey k c) = Some Left <->
                ~ names_gas /\ ~ names_brake /\ names_left)
            /\ (key_control (mkKey k c) = Some Right <->
                ~ names_gas /\ ~ names_brake /\ ~ names_left /\ names_right)
            /\ (key_control (mkKey k c) = None <->
                ~ names_gas /\ ~ names_brake /\ ~ names_left
                /\ ~ names_right)).
  { subst names_gas names_brake names_left names_right.
    unfold key_control; cbn [key code].
    destruct (String.eqb_spec (toLowerCase k) "arrowup") as [Hup | Hup];
      destruct (String.eqb_spec c "KeyW") as [Hw | Hw];
      destruct (String.eqb_spec (toLowerCase k) "arrowdown")
        as [Hdown | Hdown];
      destruct (String.eqb_spec c "KeyS") as [Hs | Hs];
      destruct (String.eqb_spec (toLowerCase k) "arrowleft")
        as [Hleft | Hleft];
      destruct (String.eqb_spec c "KeyA") as [Ha | Ha];
      destruct (String.eqb_spec (toLowerCase k) "arrowright")
        as [Hright | Hright];
      destruct (String.eqb_spec c "KeyD") as [Hd | Hd];
      cbn [orb];
      repeat split; intros; try discriminate; try congruence; try tauto. }
  destruct Hchain as (Hgas & Hbrake & Hleft & Hright & Hnone).
  split; [ | split; [ | split; [ | split; [ | split] ] ] ].
  - unfold key_control; cbn [key code]. now rewrite toLowerCase_idempotent.
  - apply Hgas.
  - split.
    + unfold key_control; cbn [key code].
      now rewrite (proj2 (String.eqb_eq "KeyW" "KeyW") eq_refl), orb_true_r.
    + reflexivity.
  - intros H. apply Hbrake in H as [Hno Hyes].
    subst names_gas. cbn beta in Hno. tauto.
  - intros H controls0. unfold keydown, keyup. now rewrite H.
  - split; [exact Hgas | ]. split; [exact Hbrake | ].
    split; [exact Hleft | ]. split; [exact Hright | ].
    split; [exact Hnone | ].
    intros n controls0 H. unfold keydown, keyup. rewrite H.
    repeat split; try reflexivity; apply get_set_same.
Qed.

Lemma keyboard_mapping_witness :
  key_control (mkKey "ArrowUp" "KeyS") = Some Gas
  /\ key_control (mkKey "ArrowRight" "KeyA") = Some Left
  /\ right (keydown (mkKey "d" "KeyD") released) = true.
Proof.
  split; [ | split].
  - apply (proj1 (proj2 (keyboard_mapping "ArrowUp" "KeyS"))).
    left. reflexivity.
  - apply (proj1 (proj2 (proj2 (proj2 (proj2 (proj2 (proj2
             (proj2 (keyboard_mapping "ArrowRight" "KeyA")))))))));
      repeat split; try (intros [H | H]; discriminate H).
    right. reflexivity.
  - apply (proj2 (proj2 (proj2 (proj2 (proj2 (proj2 (proj2
             (proj2 (proj2 (proj2 (keyboard_mapping "d" "KeyD"))))))))))
             Right released).
    reflexivity.
Defined.

End LatchProperties.

(** ** The latch over a whole sequence of events *)

Section TraceProperties.

Import TruckController InputSources Traces.

Lemma last_write_snoc n events ev :
  last_write n (events ++ [ev])
  = match bound (fst (source_of ev)) with
    | Some m =>
      if ControlName_eqb m n then Some (snd (source_of ev))
      else last_write n events
    | None => last_write n events
    end.
Proof. unfold last_write. now rewrite fold_left_app. Qed.

(** X14.  After any sequence of events a control holds the polarity of
    the last event bound to it, press or release, from whichever source it
    came; a control no event was bound to holds the value it had before. *)
Theorem latch_keeps_last_write
    (events : list Event) (c : Controls) (n : ControlName) :
  get n (latch events c)
  = match last_write n events with
    | Some polarity => polarity
    | None => get n c
    end.
Proof.
  induction events as [ | ev events IH] using rev_ind; [reflexivity | ].
  rewrite latch_snoc, last_write_snoc, handle_writes.
  destruct (bound (fst (source_of ev))) as [m | ]; [ | exact IH].
  destruct (ControlName_eqb m n) eqn:Hmn.
  - apply ControlName_eqb_eq in Hmn. subst m. apply get_set_same.
  - rewrite get_set_other; [exact IH | ].
    intros ->. destruct n; discriminate Hmn.
Qed.

End TraceProperties.

(** ** More on the orbit camera *)

Section OrbitProperties.

Import CameraController Traces.

Lemma handle_distance ev s :
  distance (handle ev s) = distance s
  \/ exists v, distance (handle ev s) = Rmax 5 (Rmin 30 v).
Proof.
  destruct ev as [b cx cy | cx cy | b | | ts | ts | ts | dy]; cbn;
    unfold mousedown, mousemove, mouseup, touchstart, touchmove, touchend;
    repeat match goal with
           | |- context [if ?b then _ else _] => destruct b
           | |- context [match ?l with [] => _ | _ :: _ => _ end] =>
             destruct l
           end;
    try (left; reflexivity); right; eexists; reflexivity.
Qed.

Lemma reachable_distance_within s : reachable s -> 5 <= distance s <= 30.
Proof.
  induction 1 as [camera0 | a s _ IH].
  - cbn. lra.
  - destruct a as [ev | p r | ]; cbn [step]; [ | exact IH | exact IH].
    destruct (handle_distance ev s) as [-> | [v ->] ]; [exact IH | ].
    apply tilt_clamped. lra.
Qed.

(** X15.  In every state the rig can reach the distance to the truck lies
    in [[5, 30]]: it starts at 15, only the wheel listener changes it, and
    that listener clamps what it stores. *)
Theorem camera_distance_within_bounds :
  (forall s, reachable s -> 5 <= distance s <= 30)
  /\ (forall s deltaY,
        distance (wheel deltaY s)
        = Rmax 5 (Rmin 30 (distance s + deltaY * 0.01))
        /\ 5 <= distance (wheel deltaY s) <= 30)
  /\ (forall s ev,
        match ev with Wheel _ => True | _ => distance (handle ev s) = distance s
        end).
Proof.
  split; [exact reachable_distance_within | split].
  - intros s deltaY. split; [reflexivity | ]. apply tilt_clamped. lra.
  - intros s ev.
    destruct ev as [b cx cy | cx cy | b | | ts | ts | ts | dy]; cbn;
      unfold mousedown, mousemove, mouseup, touchstart, touchmove, touchend;
      repeat match goal with
             | |- context [if ?b then _ else _] => destruct b
             | |- context [match ?l with [] => _ | _ :: _ => _ end] =>
               destruct l
             end; reflexivity || exact I.
Qed.

Lemma camera_distance_within_bounds_witness :
  let s := run [Input (Wheel 100000); Input (MouseDown 2 0 0);
                Input (Wheel (-7)); Follow (Vector3.mk 0 0 0) 0]
               (constructor game_camera) in
  5 <= distance s <= 30.
Proof.
  intros s. apply (proj1 camera_distance_within_bounds s).
  subst s. unfold run; cbn [fold_left].
  repeat apply reachable_step. apply reachable_constructor.
Defined.

Lemma drag_cons cx cy moves s :
  drag ((cx, cy) :: moves) s = drag moves (mousemove cx cy s).
Proof. reflexivity. Qed.

Lemma last_cons_default (l : list R) (a d : R) : last (a :: l) d = last l a.
Proof.
  revert a d. induction l as [ | b l IH]; intros a d; [reflexivity | ].
  change (last (a :: b :: l) d) with (last (b :: l) d).
  now rewrite !IH.
Qed.

Lemma mousemove_dragging cx cy s :
  isRotating s = true ->
  isRotating (mousemove cx cy s) = true
  /\ lastX (mousemove cx cy s) = cx
  /\ sensitivity (mousemove cx cy s) = sensitivity s
  /\ angleH (mousemove cx cy s) = angleH s - (cx - lastX s) * sensitivity s.
Proof. intros Hrot. unfold mousemove. rewrite Hrot. now repeat split. Qed.

(** X16.  A mouse drag turns the camera horizontally by the net pointer
    travel only: after any run of [mousemove] events during a drag,
    [angleH] has changed by minus the sensitivity times the difference
    between the last and the first [clientX], whatever path the pointer
    took; the last position is remembered.  Outside a drag the same run
    changes nothing at all. *)
Theorem horizontal_drag_is_path_independent
    (moves : list (R * R)) (s : t) :
  (isRotating s = true ->
   lastX (drag moves s) = last (map fst moves) (lastX s)
   /\ angleH (drag moves s)
      = angleH s - (lastX (drag moves s) - lastX s) * sensitivity s
   /\ isRotating (drag moves s) = true)
  /\ (isRotating s = false -> drag moves s = s).
Proof.
  split.
  - revert s. induction moves as [ | [cx cy] moves IH]; intros s Hrot.
    + cbn. repeat split; [lra | exact Hrot].
    + rewrite drag_cons.
      destruct (mousemove_dragging cx cy s Hrot) as (Hrot1 & Hx1 & Hs1 & Ha1).
      destruct (IH (mousemove cx cy s) Hrot1) as (HlastX & HangleH & Hstill).
      rewrite Hx1, Hs1, Ha1 in *.
      split; [ | split; [ | exact Hstill] ].
      * rewrite HlastX. cbn [map fst]. now rewrite last_cons_default.
      * rewrite HangleH. ring.
  - revert s. induction moves as [ | [cx cy] moves IH]; intros s Hrot.
    + reflexivity.
    + rewrite drag_cons.
      assert (Hstep : mousemove cx cy s = s)
        by (unfold mousemove; now rewrite Hrot).
      rewrite Hstep. now apply IH.
Qed.

Lemma horizontal_drag_is_path_independent_witness :
  let s := handle (MouseDown 2 100 40) (constructor game_camera) in
  angleH (drag [(130, 45); (90, 200); (160, 10)] s)
  = angleH s
    - (lastX (drag [(130, 45); (90, 200); (160, 10)] s) - lastX s)
      * sensitivity s.
Proof.
  intros s.
  apply (proj1 (horizontal_drag_is_path_independent
                  [(130, 45); (90, 200); (160, 10)] s)).
  reflexivity.
Defined.

End OrbitProperties.

(** ** Where the camera is heading *)

Section TargetProperties.

Import CameraController Traces.

Lemma target_offset targetPosition targetRotation s :
  let target := targetCameraPos targetPosition targetRotation s in
  Vector3.x target - Vector3.x targetPosition
  = - (sin (targetRotation + angleH s) * distance s * cos (angleV s))
  /\ Vector3.y target - Vector3.y targetPosition
     = distance s * sin (angleV s)
  /\ Vector3.z target - Vector3.z targetPosition
     = - (cos (targetRotation + angleH s) * distance s * cos (angleV s)).
Proof. cbn. repeat split; ring. Qed.

Lemma target_distanceToSquared targetPosition targetRotation s :
  Vector3.distanceToSquared targetPosition
    (targetCameraPos targetPosition targetRotation s)
  = distance s * distance s.
Proof.
  destruct (target_offset targetPosition targetRotation s) as (Hx & Hy & Hz).
  unfold Vector3.distanceToSquared. rewrite Hx, Hy, Hz.
  pose proof (sin2_cos2 (targetRotation + angleH s)) as Ht.
  pose proof (sin2_cos2 (angleV s)) as Hv. unfold Rsqr in Ht, Hv.
  set (st := sin (targetRotation + angleH s)) in *.
  set (ct := cos (targetRotation + angleH s)) in *.
  set (sv := sin (angleV s)) in *. set (cv := cos (angleV s)) in *.
  replace (- (st * distance s * cv) * - (st * distance s * cv)
           + distance s * sv * (distance s * sv)
           + - (ct * distance s * cv) * - (ct * distance s * cv))
    with (distance s * distance s
          * ((st * st + ct * ct) * (cv * cv) + sv * sv)) by ring.
  rewrite Ht. replace (1 * (cv * cv) + sv * sv) with (sv * sv + cv * cv)
    by ring.
  rewrite Hv. ring.
Qed.

(** X17.  The point the camera heads for lies on the sphere around the
    truck whose radius is the orbit distance: whatever the truck's pose and
    the orbit angles, its distance to the truck position is [|distance|],
    which in every reachable state of the rig is [distance] itself. *)
Theorem camera_target_at_orbit_distance
    (s : t) (targetPosition : Vector3.t) (targetRotation : R) :
  let target := targetCameraPos targetPosition targetRotation s in
  Vector3.distanceTo targetPosition target = Rabs (distance s)
  /\ (reachable s -> Vector3.distanceTo targetPosition target = distance s).
Proof.
  intros target.
  assert (Habs : Vector3.distanceTo targetPosition target
                 = Rabs (distance s)).
  { unfold Vector3.distanceTo. subst target.
    rewrite target_distanceToSquared. apply sqrt_Rsqr_abs. }
  split; [exact Habs | ].
  intros Hr. rewrite Habs.
  pose proof (reachable_distance_within s Hr). apply Rabs_right. lra.
Qed.

Lemma camera_target_at_orbit_distance_witness :
  let s := run [Input (Wheel 300); Input (MouseDown 2 0 0);
                Input (MouseMove 35 (-20))]
               (constructor game_camera) in
  Vector3.distanceTo (Vector3.mk 1 0 7)
    (targetCameraPos (Vector3.mk 1 0 7) 0.4 s)
  = distance s.
Proof.
  intros s.
  apply (proj2 (camera_target_at_orbit_distance s (Vector3.mk 1 0 7) 0.4)).
  subst s. unfold run; cbn [fold_left].
  repeat apply reachable_step. apply reachable_constructor.
Defined.

(** X18.  In every reachable state of the rig the point the camera heads
    for is above the truck and not over it: its height over the truck
    position is [distance * sin(angleV) > 0], and its horizontal distance
    from the truck is [distance * cos(angleV)], at least 2.5. *)
Theorem camera_target_above_and_behind
    (s : t) (targetPosition : Vector3.t) (targetRotation : R) :
  reachable s ->
  let target := targetCameraPos targetPosition targetRotation s in
  let dx := Vector3.x target - Vector3.x targetPosition in
  let dz := Vector3.z target - Vector3.z targetPosition in
  Vector3.y target - Vector3.y targetPosition = distance s * sin (angleV s)
  /\ 0 < Vector3.y target - Vector3.y targetPosition
  /\ sqrt (dx * dx + dz * dz) = distance s * cos (angleV s)
  /\ 2.5 <= sqrt (dx * dx + dz * dz).
Proof.
  intros Hr target dx dz.
  pose proof (reachable_distance_within s Hr) as Hd.
  pose proof (reachable_tilt_within s Hr) as Hv.
  destruct (reachable_tilt_limits s Hr) as [Hlo Hhi].
  rewrite Hlo, Hhi in Hv. pose proof three_below_PI as Hpi.
  pose proof PI_4 as Hpi4.
  destruct (target_offset targetPosition targetRotation s) as (Hx & Hy & Hz).
  fold target in Hx, Hy, Hz. fold dx in Hx. fold dz in Hz.
  assert (Hsin : 0 < sin (angleV s)) by (apply sin_gt_0; lra).
  assert (Hcos : 1 / 2 <= cos (angleV s)).
  { rewrite <- cos_PI3. apply cos_decr_1; lra. }
  assert (Hflat : sqrt (dx * dx + dz * dz) = distance s * cos (angleV s)).
  { rewrite Hx, Hz.
    pose proof (sin2_cos2 (targetRotation + angleH s)) as Ht.
    unfold Rsqr in Ht.
    set (st := sin (targetRotation + angleH s)) in *.
    set (ct := cos (targetRotation + angleH s)) in *.
    replace (- (st * distance s * cos (angleV s))
             * - (st * distance s * cos (angleV s))
             + - (ct * distance s * cos (angleV s))
               * - (ct * distance s * cos (angleV s)))
      with ((st * st + ct * ct)
            * ((distance s * cos (angleV s)) * (distance s * cos (angleV s))))
      by ring.
    rewrite Ht, Rmult_1_l. apply sqrt_square. nra. }
  split; [exact Hy | ].
  split; [rewrite Hy; nra | ].
  split; [exact Hflat | ].
  rewrite Hflat. nra.
Qed.

Lemma camera_target_above_and_behind_witness :
  let target :=
    targetCameraPos (Vector3.mk 2 0 40) 1 (constructor game_camera) in
  0 < Vector3.y target - 0.
Proof.
  intros target.
  apply (camera_target_above_and_behind
           (constructor game_camera) (Vector3.mk 2 0 40) 1).
  apply reachable_constructor.
Defined.

End TargetProperties.

(** ** The performance class and its settings *)

Section PerformanceProperties.

Import PerformanceManager.

Lemma heuristic_cases b performanceClass0 :
  telegram_performance_class b = None
  \/ telegram_performance_class b = Some ""%string ->
  detectPerformance b performanceClass0
  = if mobile_pattern_test (userAgent b) then
      if Rle_dec (memory_or_default (deviceMemory b)) 2 then "LOW"%string
      else if Rle_dec (memory_or_default (deviceMemory b)) 4
           then "AVERAGE"%string
           else "HIGH"%string
    else "HIGH"%string.
Proof.
  intros Htg. unfold detectPerformance.
  destruct Htg as [-> | ->];
    destruct (mobile_pattern_test (userAgent b));
    repeat destruct Rle_dec; try destruct Rlt_dec; cbn; try reflexivity;
      lra.
Qed.

Lemma heuristic_known b performanceClass0 :
  telegram_performance_class b = None
  \/ telegram_performance_class b = Some ""%string ->
  known_class (detectPerformance b performanceClass0).
Proof.
  intros Htg. rewrite heuristic_cases by exact Htg. unfold known_class.
  destruct (mobile_pattern_test (userAgent b)); repeat destruct Rle_dec;
    tauto.
Qed.

(** X20.  Without a class from Telegram the heuristic always decides, and
    the class it finds is LOW, AVERAGE or HIGH whatever the field held
    before: a user agent that is not mobile gives HIGH; a mobile one gives
    LOW up to 2 GB of memory, AVERAGE up to 4 GB and HIGH above; a missing
    or zero [deviceMemory] counts as 4 GB, so a mobile browser that does not
    tell its memory is AVERAGE. *)
Theorem heuristic_always_classifies (b : Browser) (performanceClass0 : string) :
  telegram_performance_class b = None
  \/ telegram_performance_class b = Some ""%string ->
  let found := detectPerformance b performanceClass0 in
  let memory := memory_or_default (deviceMemory b) in
  known_class found
  /\ (mobile_pattern_test (userAgent b) = false -> found = "HIGH"%string)
  /\ (mobile_pattern_test (userAgent b) = true ->
      (memory <= 2 -> found = "LOW"%string)
      /\ (2 < memory <= 4 -> found = "AVERAGE"%string)
      /\ (4 < memory -> found = "HIGH"%string))
  /\ (mobile_pattern_test (userAgent b) = true ->
      deviceMemory b = None \/ deviceMemory b = Some 0 ->
      found = "AVERAGE"%string).
Proof.
  intros Htg found memory.
  assert (Hfound :
            found
            = if mobile_pattern_test (userAgent b) then
                if Rle_dec memory 2 then "LOW"%string
                else if Rle_dec memory 4 then "AVERAGE"%string
                     else "HIGH"%string
              else "HIGH"%string)
    by (apply heuristic_cases, Htg).
  assert (Hdefault : deviceMemory b = None \/ deviceMemory b = Some 0 ->
                     memory = 4).
  { subst memory. intros [-> | ->]; cbn; [reflexivity | ].
    destruct Req_dec_T; [reflexivity | lra]. }
  rewrite Hfound. unfold known_class.
  split.
  { destruct (mobile_pattern_test (userAgent b)); repeat destruct Rle_dec;
      tauto. }
  split; [now intros -> | ].
  split.
  - intros ->. repeat split; intros Hm; repeat destruct Rle_dec;
      try reflexivity; lra.
  - intros -> Hmem. rewrite (Hdefault Hmem).
    repeat destruct Rle_dec; try reflexivity; lra.
Qed.

Lemma heuristic_always_classifies_witness :
  detectPerformance
    (mkBrowser None "Mozilla/5.0 (Linux; ANDROID 13; Pixel 7)" None 3
       canonicalize)
    "AVERAGE"
  = "AVERAGE"%string.
Proof.
  apply (heuristic_always_classifies
           (mkBrowser None "Mozilla/5.0 (Linux; ANDROID 13; Pixel 7)" None 3
       canonicalize)
           "AVERAGE");
    [left; reflexivity | reflexivity | left; reflexivity].
Defined.

Lemma known_class_dec performanceClass0 :
  {known_class performanceClass0} + {~ known_class performanceClass0}.
Proof.
  unfold known_class.
  destruct (string_dec performanceClass0 "LOW");
    destruct (string_dec performanceClass0 "AVERAGE");
    destruct (string_dec performanceClass0 "HIGH"); tauto.
Qed.

Lemma applySettings_known performanceClass0 devicePixelRatio0 settings0 name :
  known_class performanceClass0 ->
  In name setting_names ->
  JS.get name (applySettings performanceClass0 devicePixelRatio0 settings0)
  <> None.
Proof.
  intros [-> | [-> | ->] ] Hin; cbn in Hin;
    repeat (destruct Hin as [<- | Hin]; [cbn; discriminate | ]);
    contradiction.
Qed.

Lemma applySettings_unknown performanceClass0 devicePixelRatio0 settings0 :
  ~ known_class performanceClass0 ->
  applySettings performanceClass0 devicePixelRatio0 settings0 = settings0.
Proof.
  intros Hnot. unfold applySettings, known_class in *.
  destruct (String.eqb_spec performanceClass0 "LOW"); [tauto | ].
  destruct (String.eqb_spec performanceClass0 "AVERAGE"); [tauto | ].
  destruct (String.eqb_spec performanceClass0 "HIGH"); [tauto | ].
  reflexivity.
Qed.

(** X21.  A class reported by Telegram replaces the heuristic, whatever
    the device, and is stored as the engine's [toUpperCase] returns it; for
    a class written in ASCII characters that is the class with a-z turned
    into A-Z.  The settings are filled in, all twelve of them, exactly when
    the stored class is LOW, AVERAGE or HIGH; any other class from Telegram
    leaves the settings object empty, so every setting read from it is
    undefined. *)
Theorem settings_follow_class (b : Browser) :
  let pm := constructor b in
  (forall c rest,
      telegram_performance_class b = Some (String c rest) ->
      performanceClass pm = toUpperCase b (String c rest)
      /\ (unicode_on_ascii b -> ascii_only (String c rest) = true ->
          performanceClass pm = canonicalize (String c rest)))
  /\ (known_class (performanceClass pm) ->
      forall name, In name setting_names ->
                   JS.get name (settings pm) <> None)
  /\ (~ known_class (performanceClass pm) ->
      settings pm = []
      /\ exists c rest, telegram_performance_class b = Some (String c rest)).
Proof.
  intros pm. split; [ | split].
  - intros c rest Htg.
    assert (Hclass : performanceClass pm = toUpperCase b (String c rest))
      by (subst pm; cbn; unfold detectPerformance; now rewrite Htg).
    split; [exact Hclass | ].
    intros Hengine Hascii. rewrite Hclass. now apply Hengine.
  - intros Hknown name Hin. now apply applySettings_known.
  - intros Hnot. split; [now apply applySettings_unknown | ].
    destruct (telegram_performance_class b) as [ [ | c rest] | ] eqn:Htg.
    + exfalso. apply Hnot.
      apply (heuristic_known b "AVERAGE"). now right.
    + now exists c, rest.
    + exfalso. apply Hnot.
      apply (heuristic_known b "AVERAGE"). now left.
Qed.

Lemma settings_follow_class_witness :
  let pm := constructor
              (mkBrowser (Some "ultra"%string) "iPhone" (Some 2) 3
                 canonicalize) in
  performanceClass pm = "ULTRA"%string /\ settings pm = [].
Proof.
  intros pm.
  destruct (settings_follow_class
              (mkBrowser (Some "ultra"%string) "iPhone" (Some 2) 3
                 canonicalize))
    as (Hclass & _ & Hempty).
  split.
  - apply (proj2 (Hclass "u"%char "ltra"%string eq_refl)).
    + intros str _. reflexivity.
    + reflexivity.
  - apply Hempty. unfold known_class. cbn.
    intros [H | [H | H] ]; discriminate H.
Defined.

End PerformanceProperties.

(** ** The roadside *)

Section EnvironmentProperties.

Import Environment.

Lemma placeTree_placed random drawn :
  unit_interval random ->
  let tree := placeTree random drawn in
  6 <= Rabs (Vector3.x (position tree)) < 16
  /\ Vector3.y (position tree) = 0
  /\ -90 <= Vector3.z (position tree) < 90
  /\ (exists k, scale tree = Vector3.mk k k k /\ 0.8 <= k < 1.2)
  /\ 0 <= Vector3.y (rotation tree) < 2 * PI.
Proof.
  intros Hunit. cbn zeta. unfold placeTree. cbn [position scale rotation
    Vector3.x Vector3.y Vector3.z Vector3.set_y createTree fresh].
  pose proof (Hunit (drawn + 1)%nat) as H1.
  pose proof (Hunit (drawn + 2)%nat) as H2.
  pose proof (Hunit (drawn + 3)%nat) as H3.
  pose proof (Hunit (drawn + 4)%nat) as H4.
  pose proof PI_RGT_0 as Hpi.
  split.
  { destruct Rlt_dec; unfold Rabs; destruct Rcase_abs; lra. }
  split; [reflexivity | ].
  split; [lra | ].
  split.
  { eexists. split; [reflexivity | lra]. }
  nra.
Qed.

Lemma trees_from_placed fuel i count random :
  unit_interval random ->
  Forall (fun tree => exists drawn, tree = placeTree random drawn)
         (trees_from fuel i count random).
Proof.
  intros Hunit. revert i. induction fuel as [ | fuel IH]; intros i; cbn.
  - constructor.
  - destruct Rlt_dec; constructor; [now eexists | apply IH].
Qed.

(** With fuel above the count the loop runs as long as its test holds:
    round [i + j] adds a tree exactly when [i + j < count]. *)
Lemma trees_from_rounds fuel i count random :
  count <= INR (i + fuel) ->
  forall j,
    (j < List.length (trees_from fuel i count random))%nat
    <-> INR (i + j) < count.
Proof.
  revert i. induction fuel as [ | fuel IH]; intros i Hfuel j;
    cbn [trees_from].
  - rewrite Nat.add_0_r in Hfuel. cbn [List.length].
    assert (INR i <= INR (i + j)) by (apply le_INR; lia).
    split; [lia | lra].
  - destruct (Rlt_dec (INR i) count) as [Hlt | Hge].
    + cbn [List.length]. destruct j as [ | j].
      * rewrite Nat.add_0_r. split; [intros _; exact Hlt | lia].
      * replace (i + S j)%nat with (S i + j)%nat by lia.
        rewrite <- (IH (S i)); [lia | ].
        replace (S i + fuel)%nat with (i + S fuel)%nat by lia. exact Hfuel.
    + cbn [List.length].
      assert (INR i <= INR (i + j)) by (apply le_INR; lia).
      split; [lia | lra].
Qed.

Lemma fuel_above_count count : count <= INR (0 + Z.to_nat (up count)).
Proof.
  cbn [Nat.add]. destruct (archimed count) as [Hup _].
  destruct (Z_lt_le_dec (up count) 0) as [Hneg | Hpos].
  - replace (Z.to_nat (up count)) with 0%nat by lia.
    apply IZR_lt in Hneg. cbn. lra.
  - rewrite INR_IZR_INZ, Z2Nat.id by exact Hpos. lra.
Qed.

Lemma trees_from_length fuel i k random :
  INR k <= INR (i + fuel) ->
  List.length (trees_from fuel i (INR k) random) = (k - i)%nat.
Proof.
  intros Hfuel.
  pose proof (trees_from_rounds fuel i (INR k) random Hfuel) as Hrounds.
  set (n := List.length (trees_from fuel i (INR k) random)) in *.
  clearbody n.
  assert (Hup : forall j, (j < n)%nat -> (i + j < k)%nat)
    by (intros j Hj; apply INR_lt, Hrounds, Hj).
  assert (Hdown : forall j, (i + j < k)%nat -> (j < n)%nat)
    by (intros j Hj; apply Hrounds, lt_INR, Hj).
  destruct (Nat.lt_trichotomy n (k - i)) as [Hlt | [Heq | Hgt] ];
    [ | exact Heq | ].
  - specialize (Hdown n). lia.
  - destruct n as [ | n]; [lia | ]. specialize (Hup n). lia.
Qed.

Lemma trees_from_below fuel i count n random :
  count <= INR n ->
  (List.length (trees_from fuel i count random) <= n - i)%nat.
Proof.
  intros Hn. revert i. induction fuel as [ | fuel IH]; intros i;
    cbn [trees_from]; [cbn; lia | ].
  destruct (Rlt_dec (INR i) count) as [Hlt | Hge]; [ | cbn; lia].
  assert (i < n)%nat by (apply INR_lt; lra).
  cbn [List.length]. specialize (IH (S i)). lia.
Qed.

(** X22.  Whatever [Math.random] yields within [[0, 1)] and whatever the
    settings, left aside those whose [maxTreeCount] is a string,
    [createTrees] plants at most 40 trees, and for a number [m] as
    [maxTreeCount] it plants tree number [i] exactly when [i] is below the
    lesser of [m] and 40.  Each tree stands on the ground between 6 and 16
    to the left or right of the centre line, so never on the road nor in
    the lane the truck is held to, between -90 and 90 along the road,
    turned by less than a full turn, and scaled evenly by a factor from 0.8
    to 1.2. *)
Theorem trees_stand_off_the_road
    (settings0 : JS.Object) (random : Random) :
  unit_interval random ->
  (forall str, JS.get "maxTreeCount" settings0 <> Some (JS.Str str)) ->
  (List.length (createTrees settings0 random) <= 40)%nat
  /\ (forall m,
        JS.get "maxTreeCount" settings0 = Some (JS.Num m) ->
        forall i,
          (i < List.length (createTrees settings0 random))%nat
          <-> INR i < Rmin m 40)
  /\ Forall
       (fun tree =>
          6 <= Rabs (Vector3.x (position tree)) < 16
          /\ Vector3.y (position tree) = 0
          /\ -90 <= Vector3.z (position tree) < 90
          /\ (exists k, scale tree = Vector3.mk k k k /\ 0.8 <= k < 1.2)
          /\ 0 <= Vector3.y (rotation tree) < 2 * PI)
       (createTrees settings0 random).
Proof.
  intros Hunit _. split; [ | split].
  - unfold createTrees.
    destruct (treeCount settings0) as [count | ] eqn:Hcount; [ | cbn; lia].
    assert (Hcap : count <= INR 40).
    { replace (INR 40) with 40 by (simpl; lra).
      unfold treeCount in Hcount.
      destruct (JS.get "maxTreeCount" settings0) as [ [m | flag | str] | ];
        try discriminate Hcount; injection Hcount as <-; apply Rmin_r. }
    pose proof (trees_from_below (Z.to_nat (up count)) 0 count 40 random Hcap).
    lia.
  - intros m Hget i. unfold createTrees, treeCount. rewrite Hget.
    rewrite (trees_from_rounds _ 0 _ random (fuel_above_count _) i).
    reflexivity.
  - unfold createTrees. destruct (treeCount settings0) as [count | ];
      [ | constructor].
    eapply Forall_impl; [ | apply trees_from_placed, Hunit].
    intros tree [drawn ->]. now apply placeTree_placed.
Qed.

Lemma halves_unit_interval : unit_interval Game.halves.
Proof. intros k. unfold Game.halves. lra. Qed.

Lemma trees_stand_off_the_road_witness :
  (List.length
     (createTrees [("maxTreeCount"%string, JS.Num 60)] Game.halves)
   <= 40)%nat.
Proof.
  apply (trees_stand_off_the_road
           [("maxTreeCount"%string, JS.Num 60)] Game.halves).
  - apply halves_unit_interval.
  - intros str H. discriminate H.
Defined.

Lemma createTrees_count k random settings0 :
  JS.get "maxTreeCount" settings0 = Some (JS.Num (INR k)) ->
  List.length (createTrees settings0 random) = Nat.min k 40.
Proof.
  intros Hget. unfold createTrees, treeCount. rewrite Hget.
  assert (Hmin : Rmin (INR k) 40 = INR (Nat.min k 40)).
  { replace 40 with (INR 40) at 1 by (simpl; lra).
    unfold Rmin. destruct Rle_dec as [Hle | Hgt].
    - apply INR_le in Hle. now rewrite Nat.min_l.
    - rewrite Nat.min_r; [reflexivity | ].
      apply Nat.lt_le_incl, INR_lt. lra. }
  rewrite Hmin.
  rewrite trees_from_length by apply fuel_above_count. lia.
Qed.

(** X23.  The number of trees follows the performance class but is capped
    at 40: the constructor of the environment plants 20 trees for LOW, 40
    for AVERAGE and also 40, not the 60 its settings ask for, for HIGH; with
    the empty settings of an unknown class it plants none.  The group then
    holds the road, 13 centre stripes, the trees and the ground. *)
Theorem tree_count_is_capped
    (b : PerformanceManager.Browser) (random : Random) :
  let pm := PerformanceManager.constructor b in
  let trees := createTrees (PerformanceManager.settings pm) random in
  (PerformanceManager.performanceClass pm = "LOW"%string ->
   List.length trees = 20%nat)
  /\ (PerformanceManager.performanceClass pm = "AVERAGE"%string ->
      List.length trees = 40%nat)
  /\ (PerformanceManager.performanceClass pm = "HIGH"%string ->
      JS.get "maxTreeCount" (PerformanceManager.settings pm)
      = Some (JS.Num 60)
      /\ List.length trees = 40%nat)
  /\ (~ PerformanceManager.known_class
        (PerformanceManager.performanceClass pm) ->
      trees = [])
  /\ List.length
       (children (constructor (PerformanceManager.settings pm) random))
     = (15 + List.length trees)%nat.
Proof.
  intros pm trees. subst trees pm. cbn [PerformanceManager.constructor
    PerformanceManager.settings PerformanceManager.performanceClass].
  set (found := PerformanceManager.detectPerformance b "AVERAGE").
  split; [ | split; [ | split; [ | split] ] ].
  - intros ->. apply (createTrees_count 20). cbn. f_equal. f_equal.
    simpl. lra.
  - intros ->. apply (createTrees_count 40). cbn. f_equal. f_equal.
    simpl. lra.
  - intros ->. split; [reflexivity | ].
    apply (createTrees_count 60). cbn. f_equal. f_equal. simpl. lra.
  - intros Hnot. rewrite applySettings_unknown by exact Hnot. reflexivity.
  - unfold constructor; cbn [children]. rewrite !length_app.
    change (List.length createGround) with 1%nat.
    assert (Hroad : List.length createRoad = 14%nat) by reflexivity.
    rewrite Hroad. lia.
Qed.

Lemma tree_count_is_capped_witness :
  List.length
    (createTrees
       (PerformanceManager.settings (PerformanceManager.constructor Game.desktop))
       Game.halves)
  = 40%nat.
Proof.
  apply (tree_count_is_capped Game.desktop Game.halves).
  unfold Game.desktop.
  apply (heuristic_cases
           (PerformanceManager.mkBrowser
              None "Mozilla/5.0 (X11; Linux x86_64)" (Some 8) 1
              PerformanceManager.canonicalize)
           "AVERAGE").
  left. reflexivity.
Defined.

Lemma stripes_unnamed fuel i :
  Forall (fun child => name child = ""%string) (stripes_from fuel i).
Proof.
  revert i. induction fuel as [ | fuel IH]; intros i; cbn.
  - constructor.
  - destruct (i <? 50)%Z; constructor; [reflexivity | apply IH].
Qed.

Lemma trees_unnamed fuel i count random :
  Forall (fun child => name child = ""%string)
         (trees_from fuel i count random).
Proof.
  revert i. induction fuel as [ | fuel IH]; intros i; cbn.
  - constructor.
  - destruct Rlt_dec; constructor; [reflexivity | apply IH].
Qed.

Lemma children_unnamed settings0 random :
  Forall (fun child => name child = ""%string)
         (children (constructor settings0 random)).
Proof.
  unfold constructor; cbn [children]. rewrite !Forall_app.
  split; [ | split].
  - constructor; [reflexivity | apply stripes_unnamed].
  - unfold createTrees. destruct (treeCount settings0);
      [apply trees_unnamed | constructor].
  - repeat constructor.
Qed.

Lemma update_unnamed truckPosition env :
  Forall (fun child => name child = ""%string) (children env) ->
  update truckPosition env = env.
Proof.
  intros Hnames. unfold update.
  set (pass := map _ (children env)).
  assert (Hpass : mk (settings env) pass = env).
  { subst pass. destruct env as [settings0 children0]. cbn in *. f_equal.
    induction Hnames as [ | child rest Hname _ IH]; [reflexivity | ].
    cbn [map]. rewrite Hname, IH. reflexivity. }
  clearbody pass.
  destruct (JS.get "performanceClass" (settings env)) as [ [r | flag | str] | ];
    try reflexivity.
  repeat match goal with
         | |- context [match ?x with EmptyString => _ | String _ _ => _ end] =>
           destruct x
         | |- context [match ?a with Ascii _ _ _ _ _ _ _ _ => _ end] =>
           destruct a
         | |- context [if ?flag then _ else _] => destruct flag
         end; try reflexivity; exact Hpass.
Qed.

(** X24.  [update] of the environment never hides or shows anything.  Its
    level-of-detail pass looks for children named [Tree], but no object
    the constructor adds carries a name, so with any settings, any random
    stream and any truck position the environment after [update] is the
    environment before; and on the settings [applySettings] builds the pass
    is not even entered, since they hold no [performanceClass]. *)
Theorem environment_update_changes_nothing :
  (forall settings0 random truckPosition,
      update truckPosition (constructor settings0 random)
      = constructor settings0 random)
  /\ (forall b,
        JS.get "performanceClass"
               (PerformanceManager.settings (PerformanceManager.constructor b))
        = None).
Proof.
  split.
  - intros settings0 random truckPosition.
    apply update_unnamed, children_unnamed.
  - intros b. cbn [PerformanceManager.constructor PerformanceManager.settings].
    destruct (known_class_dec (PerformanceManager.detectPerformance b "AVERAGE"))
      as [ [-> | [-> | ->] ] | Hnot]; try reflexivity.
    now rewrite applySettings_unknown.
Qed.

End EnvironmentProperties.

(** ** The frame loop *)

Section GameProperties.

Import Game.

Lemma game_truck_reachable g :
  reachable g -> TruckController.reachable (truckController g).
Proof.
  induction 1 as [b random | a g _ IH].
  - apply TruckController.reachable_constructor.
  - destruct a as [ev | ev | deltaTime]; cbn [step truckController update].
    + now apply TruckController.reachable_step.
    + exact IH.
    + exact (TruckController.reachable_step (TruckController.Tick deltaTime)
               _ IH).
Qed.

Lemma game_camera_reachable g :
  reachable g -> CameraController.reachable (cameraController g).
Proof.
  induction 1 as [b random | a g _ IH].
  - apply CameraController.reachable_constructor.
  - destruct a as [ev | ev | deltaTime]; cbn [step cameraController update].
    + exact IH.
    + exact (CameraController.reachable_step (CameraController.Input ev) _ IH).
    + exact (CameraController.reachable_step
               (CameraController.Follow _ _) _ IH).
Qed.

Lemma handle_camera ev s :
  CameraController.camera (CameraController.handle ev s)
  = CameraController.camera s.
Proof.
  destruct ev as [b cx cy | cx cy | b | | ts | ts | ts | dy]; cbn;
    unfold CameraController.mousedown, CameraController.mousemove,
      CameraController.mouseup, CameraController.touchstart,
      CameraController.touchmove, CameraController.touchend;
    repeat match goal with
           | |- context [if ?b then _ else _] => destruct b
           | |- context [match ?l with [] => _ | _ :: _ => _ end] =>
             destruct l
           end; reflexivity.
Qed.

Lemma orbit_height_positive s :
  CameraController.reachable s ->
  0 < CameraController.distance s * sin (CameraController.angleV s).
Proof.
  intros Hr.
  pose proof (reachable_distance_within s Hr) as Hd.
  pose proof (reachable_tilt_within s Hr) as Hv.
  destruct (reachable_tilt_limits s Hr) as [Hlo Hhi].
  rewrite Hlo, Hhi in Hv. pose proof three_below_PI as Hpi.
  assert (Hsin : 0 < sin (CameraController.angleV s))
    by (apply sin_gt_0; lra).
  nra.
Qed.

(** X25.  Each frame aims the camera at the truck as the same frame has
    just moved it: after [update] the camera looks at the point one unit
    above the truck's new position, and that point lies at height 1 over
    the lane, its [x] within [[-3, 3]]. *)
Theorem camera_looks_at_moved_truck (g : t) (deltaTime : R) :
  reachable g ->
  let g' := update deltaTime g in
  let truckPos := TruckController.position (truckController g') in
  let lookAt :=
    CameraController.cam_lookAt
      (CameraController.camera (cameraController g')) in
  truckController g' = TruckController.update deltaTime (truckController g)
  /\ lookAt = Vector3.mk (Vector3.x truckPos) (Vector3.y truckPos + 1)
                         (Vector3.z truckPos)
  /\ Vector3.y lookAt = 1
  /\ -3 <= Vector3.x lookAt <= 3.
Proof.
  intros Hr g' truckPos lookAt.
  assert (Hg' : reachable g') by exact (reachable_step (Frame deltaTime) g Hr).
  pose proof (game_truck_reachable g' Hg') as Htruck.
  destruct (reachable_grounded _ Htruck) as [Hy _].
  pose proof (reachable_in_lane _ Htruck) as Hx.
  unfold TruckController.in_lane in Hx. fold truckPos in Hy, Hx.
  assert (Hlook : lookAt = Vector3.mk (Vector3.x truckPos)
                                      (Vector3.y truckPos + 1)
                                      (Vector3.z truckPos)) by reflexivity.
  split; [reflexivity | split; [exact Hlook | ] ].
  rewrite Hlook. cbn [Vector3.x Vector3.y]. rewrite Hy. split; lra.
Qed.

Lemma camera_looks_at_moved_truck_witness :
  let g := run [TruckInput (TruckController.TouchStart TruckController.Gas);
                Frame 0.016; Frame 0.016]
               (constructor desktop halves) in
  Vector3.y (CameraController.cam_lookAt
               (CameraController.camera (cameraController (update 0.016 g))))
  = 1.
Proof.
  intros g.
  apply (camera_looks_at_moved_truck g 0.016).
  subst g. unfold run; cbn [fold_left].
  repeat apply reachable_step. apply reachable_constructor.
Defined.

(** X26.  In a running game the camera never sinks to the ground: in
    every state reached from the constructor by control events, camera
    gestures and frames, the height of the camera position is positive. *)
Theorem camera_stays_above_ground (g : t) :
  reachable g ->
  0 < Vector3.y (CameraController.cam_position
                   (CameraController.camera (cameraController g))).
Proof.
  intros Hr. induction Hr as [b random | a g Hr IH].
  - cbn. lra.
  - destruct a as [ev | ev | deltaTime]; cbn [step cameraController].
    + exact IH.
    + now rewrite handle_camera.
    + pose proof (game_camera_reachable g Hr) as Hrig.
      pose proof (orbit_height_positive _ Hrig) as Hup.
      pose proof (game_truck_reachable _ (reachable_step (Frame deltaTime) g Hr))
        as Htruck.
      destruct (reachable_grounded _ Htruck) as [Hy _].
      cbn [step update truckController] in Hy.
      set (tc := TruckController.update deltaTime (truckController g)) in *.
      change (Vector3.y
                (CameraController.cam_position
                   (CameraController.camera (cameraController (update deltaTime g)))))
        with (Vector3.y
                (CameraController.cam_position
                   (CameraController.camera (cameraController g)))
              + (Vector3.y (TruckController.position tc)
                 + CameraController.distance (cameraController g)
                   * sin (CameraController.angleV (cameraController g))
                 - Vector3.y
                     (CameraController.cam_position
                        (CameraController.camera (cameraController g))))
                * 0.1).
      rewrite Hy. lra.
Qed.

Lemma camera_stays_above_ground_witness :
  let g := run [CameraInput (CameraController.MouseDown 2 0 0);
                CameraInput (CameraController.MouseMove 0 (-4000));
                Frame 0.016; Frame 0.016]
               (constructor desktop halves) in
  0 < Vector3.y (CameraController.cam_position
                   (CameraController.camera (cameraController g))).
Proof.
  intros g. apply (camera_stays_above_ground g).
  subst g. unfold run; cbn [fold_left].
  repeat apply reachable_step. apply reachable_constructor.
Defined.

(** X27.  The game never resets its controllers, so what X2 leaves open
    cannot happen in it: in every state of a running game the truck mesh
    shows exactly the controller's position and heading, and the
    environment is still, object for object, the one the constructor
    built from the settings of the performance manager. *)
Theorem game_keeps_mesh_and_scenery (g : t) :
  reachable g ->
  Poses.mesh_in_sync (truckController g)
  /\ exists b random,
       perfManager g = PerformanceManager.constructor b
       /\ environment g = Environment.constructor (settings g) random.
Proof.
  intros Hr. induction Hr as [b random | a g Hr [Hsync (b & random & Hpm & Henv)] ].
  - split; [now split | ]. now exists b, random.
  - destruct a as [ev | ev | deltaTime].
    + split; [exact Hsync | now exists b, random].
    + split; [exact Hsync | now exists b, random].
    + split; [apply update_mesh_in_sync | ].
      exists b, random. split; [exact Hpm | ].
      cbn [step update environment]. unfold settings in *.
      cbn [perfManager]. rewrite Henv.
      apply update_unnamed, children_unnamed.
Qed.

Lemma game_keeps_mesh_and_scenery_witness :
  let g := run [TruckInput (TruckController.TouchStart TruckController.Gas);
                Frame 0.016;
                TruckInput (TruckController.TouchStart TruckController.Left);
                Frame 0.016; Frame 0.016]
               (constructor desktop halves) in
  Poses.mesh_in_sync (truckController g).
Proof.
  intros g. apply (game_keeps_mesh_and_scenery g).
  subst g. unfold run; cbn [fold_left].
  repeat apply reachable_step. apply reachable_constructor.
Defined.

End GameProperties.

(** ** How far the camera falls behind *)

Section LagProperties.

Import Game Smoothing.

Lemma distanceTo_sym a b : Vector3.distanceTo a b = Vector3.distanceTo b a.
Proof.
  unfold Vector3.distanceTo, Vector3.distanceToSquared. f_equal. ring.
Qed.

Lemma dot_below_norms u1 u2 u3 v1 v2 v3 :
  u1 * v1 + u2 * v2 + u3 * v3
  <= sqrt (u1 * u1 + u2 * u2 + u3 * u3) * sqrt (v1 * v1 + v2 * v2 + v3 * v3).
Proof.
  set (U := u1 * u1 + u2 * u2 + u3 * u3).
  set (V := v1 * v1 + v2 * v2 + v3 * v3).
  set (d := u1 * v1 + u2 * v2 + u3 * v3).
  assert (HU : 0 <= U)
    by (subst U; repeat apply Rplus_le_le_0_compat; apply Rle_0_sqr).
  assert (HV : 0 <= V)
    by (subst V; repeat apply Rplus_le_le_0_compat; apply Rle_0_sqr).
  rewrite <- sqrt_mult by assumption.
  destruct (Rle_dec d 0) as [Hneg | Hpos].
  - pose proof (sqrt_pos (U * V)). lra.
  - assert (Hcs : d * d <= U * V).
    { subst d U V.
      pose proof (Rle_0_sqr (u1 * v2 - u2 * v1)) as H12.
      pose proof (Rle_0_sqr (u1 * v3 - u3 * v1)) as H13.
      pose proof (Rle_0_sqr (u2 * v3 - u3 * v2)) as H23.
      unfold Rsqr in *. nra. }
    rewrite <- (sqrt_square d) by lra.
    now apply sqrt_le_1_alt.
Qed.

Lemma distanceTo_triangle a b c :
  Vector3.distanceTo a c <= Vector3.distanceTo a b + Vector3.distanceTo b c.
Proof.
  unfold Vector3.distanceTo.
  pose proof (distanceToSquared_nonneg a b) as Hab.
  pose proof (distanceToSquared_nonneg b c) as Hbc.
  pose proof (distanceToSquared_nonneg a c) as Hac.
  apply Rsqr_incr_0_var.
  - rewrite Rsqr_sqrt by assumption.
    unfold Rsqr.
    replace ((sqrt (Vector3.distanceToSquared a b)
              + sqrt (Vector3.distanceToSquared b c))
             * (sqrt (Vector3.distanceToSquared a b)
                + sqrt (Vector3.distanceToSquared b c)))
      with (Rsqr (sqrt (Vector3.distanceToSquared a b))
            + Rsqr (sqrt (Vector3.distanceToSquared b c))
            + 2 * (sqrt (Vector3.distanceToSquared a b)
                   * sqrt (Vector3.distanceToSquared b c)))
      by (unfold Rsqr; ring).
    rewrite !Rsqr_sqrt by assumption.
    pose proof (dot_below_norms
                  (Vector3.x b - Vector3.x a) (Vector3.y b - Vector3.y a)
                  (Vector3.z b - Vector3.z a)
                  (Vector3.x c - Vector3.x b) (Vector3.y c - Vector3.y b)
                  (Vector3.z c - Vector3.z b)) as Hdot.
    unfold Vector3.distanceToSquared in *. nra.
  - pose proof (sqrt_pos (Vector3.distanceToSquared a b)).
    pose proof (sqrt_pos (Vector3.distanceToSquared b c)). lra.
Qed.

Lemma sin_square_small y : -1 <= y <= 1 -> sin y * sin y <= y * y.
Proof.
  intros Hy. pose proof three_below_PI as Hpi.
  destruct (Rtotal_order y 0) as [Hneg | [-> | Hpos] ].
  - assert (H1 : 0 < sin (- y)) by (apply sin_gt_0; lra).
    assert (H2 : sin (- y) < - y) by (apply sin_lt_x; lra).
    rewrite sin_neg in H1, H2. nra.
  - rewrite sin_0. lra.
  - assert (H1 : 0 < sin y) by (apply sin_gt_0; lra).
    assert (H2 : sin y < y) by (apply sin_lt_x; lra).
    nra.
Qed.

Lemma chord_below_angle a b :
  -1 <= b - a <= 1 ->
  (sin b - sin a) * (sin b - sin a) + (cos b - cos a) * (cos b - cos a)
  <= (b - a) * (b - a).
Proof.
  intros Hd.
  pose proof (sin2_cos2 a) as Ha. pose proof (sin2_cos2 b) as Hb.
  unfold Rsqr in Ha, Hb.
  pose proof (cos_minus b a) as Hcos.
  pose proof (cos_2a_sin ((b - a) / 2)) as Hhalf.
  replace (2 * ((b - a) / 2)) with (b - a) in Hhalf by lra.
  pose proof (sin_square_small ((b - a) / 2) ltac:(lra)) as Hsmall.
  nra.
Qed.

Lemma update_moves_little deltaTime s :
  TruckController.reachable s ->
  Vector3.distanceTo (TruckController.position s)
    (TruckController.position (TruckController.update deltaTime s))
  <= 0.5.
Proof.
  intros Hr. unfold Vector3.distanceTo.
  replace 0.5 with (sqrt (0.5 * 0.5)) by (apply sqrt_square; lra).
  apply sqrt_le_1_alt.
  eapply Rle_trans; [now apply update_displacement_squared | ].
  destruct (reachable_tuned s Hr) as (Hm & _).
  pose proof (update_speed_within deltaTime s) as Hb.
  rewrite Hm in Hb. nra.
Qed.

Lemma update_turns_little deltaTime s :
  TruckController.reachable s ->
  -0.03 <= TruckController.rotation (TruckController.update deltaTime s)
           - TruckController.rotation s
        <= 0.03.
Proof.
  intros Hr.
  destruct (reachable_tuned s Hr) as (Hm & _ & _ & _ & Ht).
  pose proof (update_speed_within deltaTime s) as Hb.
  rewrite Hm in Hb. specialize (Hb ltac:(lra)).
  rewrite update_rotation, Hm, Ht.
  set (v := TruckController.speed (TruckController.update deltaTime s)) in *.
  assert (Habs : 0 <= Rabs v <= 0.5)
    by (unfold Rabs; destruct Rcase_abs; lra).
  destruct (Rlt_dec 0.01 (Rabs v)); [ | lra].
  unfold TruckController.sign.
  destruct (steerInput_values (TruckController.controls s)) as [-> | [-> | ->] ];
    destruct (Rlt_dec 0 v); try destruct (Rlt_dec v 0); lra.
Qed.

(** The target moves by at most 1.4 when the truck is updated and the
    orbit is left alone. *)
Lemma target_moves_little deltaTime s cc :
  TruckController.reachable s ->
  CameraController.reachable cc ->
  let s' := TruckController.update deltaTime s in
  Vector3.distanceTo
    (CameraController.targetCameraPos
       (TruckController.getPosition s) (TruckController.getRotation s) cc)
    (CameraController.targetCameraPos
       (TruckController.getPosition s') (TruckController.getRotation s') cc)
  <= 1.4.
Proof.
  intros Hr Hcc s'.
  set (T := CameraController.targetCameraPos
              (TruckController.getPosition s) (TruckController.getRotation s) cc).
  set (T' := CameraController.targetCameraPos
               (TruckController.getPosition s')
               (TruckController.getRotation s') cc).
  set (M := CameraController.targetCameraPos
              (TruckController.getPosition s')
              (TruckController.getRotation s) cc).
  eapply Rle_trans; [apply (distanceTo_triangle T M T') | ].
  assert (H1 : Vector3.distanceTo T M <= 0.5).
  { replace (Vector3.distanceTo T M)
      with (Vector3.distanceTo (TruckController.position s)
              (TruckController.position s')).
    - now apply update_moves_little.
    - unfold Vector3.distanceTo, Vector3.distanceToSquared. f_equal.
      subst T M. cbn. ring. }
  assert (H2 : Vector3.distanceTo M T' <= 0.9).
  { unfold Vector3.distanceTo.
    replace 0.9 with (sqrt (0.9 * 0.9)) by (apply sqrt_square; lra).
    apply sqrt_le_1_alt.
    pose proof (update_turns_little deltaTime s Hr) as Hturn. fold s' in Hturn.
    pose proof (reachable_distance_within cc Hcc) as Hd.
    pose proof (COS_bound (CameraController.angleV cc)) as Hcv.
    set (a := TruckController.rotation s + CameraController.angleH cc).
    set (b := TruckController.rotation s' + CameraController.angleH cc).
    pose proof (chord_below_angle a b ltac:(subst a b; lra)) as Hchord.
    replace (b - a)
      with (TruckController.rotation s' - TruckController.rotation s)
      in Hchord by (subst a b; ring).
    set (k := CameraController.distance cc
              * cos (CameraController.angleV cc)).
    assert (Hk : k * k <= 900).
    { subst k.
      set (d := CameraController.distance cc) in *.
      set (c := cos (CameraController.angleV cc)) in *.
      assert (Hdd : 0 <= d * d <= 900) by nra.
      assert (Hcc2 : 0 <= c * c <= 1) by nra.
      replace (d * c * (d * c)) with ((d * d) * (c * c)) by ring.
      replace 900 with (900 * 1) by ring.
      apply Rmult_le_compat; lra. }
    assert (Hsq : Vector3.distanceToSquared M T'
                  = k * k * ((sin b - sin a) * (sin b - sin a)
                             + (cos b - cos a) * (cos b - cos a))).
    { unfold Vector3.distanceToSquared. subst M T' k a b. cbn.
      unfold TruckController.getRotation. ring. }
    rewrite Hsq.
    set (chord := (sin b - sin a) * (sin b - sin a)
                  + (cos b - cos a) * (cos b - cos a)) in *.
    assert (Hc0 : 0 <= chord)
      by (subst chord; apply Rplus_le_le_0_compat; apply Rle_0_sqr).
    assert (Hc1 : chord <= 0.0009) by nra.
    assert (Hk0 : 0 <= k * k) by apply Rle_0_sqr.
    replace (0.9 * 0.9) with (900 * 0.0009) by lra.
    apply Rmult_le_compat; lra. }
  lra.
Qed.

Lemma frame_lag deltaTime g :
  reachable g -> lag (update deltaTime g) <= 0.9 * (lag g + 1.4).
Proof.
  intros Hr.
  pose proof (game_truck_reachable g Hr) as Htc.
  pose proof (game_camera_reachable g Hr) as Hcc.
  set (tc := truckController g) in *. set (cc := cameraController g) in *.
  set (tc' := TruckController.update deltaTime tc).
  set (T := CameraController.targetCameraPos
              (TruckController.getPosition tc)
              (TruckController.getRotation tc) cc).
  set (T' := CameraController.targetCameraPos
               (TruckController.getPosition tc')
               (TruckController.getRotation tc') cc).
  set (cam := CameraController.cam_position (CameraController.camera cc)).
  assert (Hlag : lag g = Vector3.distanceTo T cam) by reflexivity.
  assert (Hlag' : lag (update deltaTime g)
                  = Vector3.distanceTo T' (Vector3.lerp T' 0.1 cam))
    by reflexivity.
  rewrite Hlag, Hlag', lerp_distanceTo by lra.
  pose proof (distanceTo_triangle T' T cam) as Htri.
  assert (Hmove : Vector3.distanceTo T T' <= 1.4)
    by apply (target_moves_little deltaTime tc cc Htc Hcc).
  rewrite (distanceTo_sym T T') in Hmove.
  lra.
Qed.

Lemma truck_input_lag ev g : lag (step (TruckInput ev) g) = lag g.
Proof. reflexivity. Qed.

(** X28.  The smoothing lag stays bounded.  One frame leaves the camera at
    most [0.9 * (lag + 1.4)] from the point it is heading for, where [lag]
    is that distance before the frame: the truck moves by at most 0.5 and
    turns by at most 0.03 in a frame, which moves the target by at most
    1.4.  So through any run of frames and control events without a camera
    gesture the lag never exceeds the larger of its starting value and
    12.6. *)
Theorem camera_lag_stays_bounded (g : t) :
  reachable g ->
  (forall deltaTime, lag (update deltaTime g) <= 0.9 * (lag g + 1.4))
  /\ (forall actions,
        no_gesture actions -> lag (run actions g) <= Rmax (lag g) 12.6).
Proof.
  intros Hr. split; [intros deltaTime; now apply frame_lag | ].
  intros actions Hquiet.
  assert (Hboth : reachable (run actions g)
                  /\ lag (run actions g) <= Rmax (lag g) 12.6).
  { induction actions as [ | a l IH] using rev_ind.
    - split; [exact Hr | apply Rmax_l].
    - apply Forall_app in Hquiet as [Hl Ha].
      destruct (IH Hl) as [Hreach Hlag].
      unfold run. rewrite fold_left_app. cbn [fold_left].
      fold (run l g). split; [now apply reachable_step | ].
      inversion Ha as [ | a0 l0 Hone _]; subst.
      destruct a as [ev | ev | deltaTime]; [exact Hlag | contradiction | ].
      pose proof (frame_lag deltaTime _ Hreach) as Hframe.
      cbn [step].
      assert (12.6 <= Rmax (lag g) 12.6) by apply Rmax_r.
      lra. }
  apply Hboth.
Qed.

Lemma camera_lag_stays_bounded_witness :
  let g := constructor desktop halves in
  lag (run [TruckInput (TruckController.TouchStart TruckController.Gas);
            Frame 0.016; Frame 0.016; Frame 0.016] g)
  <= Rmax (lag g) 12.6.
Proof.
  intros g.
  apply (proj2 (camera_lag_stays_bounded g (reachable_constructor _ _))).
  repeat constructor.
Defined.

End LagProperties.

(** ** What the game reads from the settings *)

Section SettingsProperties.

Import Game.

Lemma known_settings_fog performanceClass0 devicePixelRatio0 settings0 :
  PerformanceManager.known_class performanceClass0 ->
  let o :=
    PerformanceManager.applySettings
      performanceClass0 devicePixelRatio0 settings0 in
  JS.get "fogEnabled" o = Some (JS.Bool true)
  /\ (exists near far,
        JS.get "fogNear" o = Some (JS.Num near)
        /\ JS.get "fogFar" o = Some (JS.Num far)
        /\ 0 < near < far)
  /\ (exists ratio,
        JS.get "pixelRatio" o = Some (JS.Num ratio) /\ ratio <= 2).
Proof.
  intros [-> | [-> | ->] ]; cbn.
  - split; [reflexivity | split].
    + exists 20, 50. repeat split; lra.
    + exists 0.75. split; [reflexivity | lra].
  - split; [reflexivity | split].
    + exists 40, 100. repeat split; lra.
    + exists 1.0. split; [reflexivity | lra].
  - split; [reflexivity | split].
    + exists 60, 150. repeat split; lra.
    + exists (Rmin devicePixelRatio0 2). split; [reflexivity | apply Rmin_r].
Qed.

(** X29.  What the game sets up from the settings.  For the classes LOW,
    AVERAGE and HIGH [setupFog] always installs fog, with a near distance
    that is positive and smaller than the far distance, and the pixel ratio
    handed to the renderer is at most 2, on HIGH the device's own ratio cut
    off at 2.  For any other class there is no fog, and no pixel ratio to
    hand on. *)
Theorem fog_and_pixel_ratio_follow_class
    (b : PerformanceManager.Browser) (random : Environment.Random) :
  let g := constructor b random in
  let known :=
    PerformanceManager.known_class
      (PerformanceManager.performanceClass (perfManager g)) in
  (known ->
   (exists near far,
       setupFog g = Some (Some (JS.Num near), Some (JS.Num far))
       /\ 0 < near < far)
   /\ (exists ratio,
         JS.get "pixelRatio" (settings g) = Some (JS.Num ratio)
         /\ ratio <= 2))
  /\ (PerformanceManager.performanceClass (perfManager g) = "HIGH"%string ->
      JS.get "pixelRatio" (settings g)
      = Some (JS.Num (Rmin (PerformanceManager.devicePixelRatio b) 2)))
  /\ (~ known ->
      setupFog g = None /\ JS.get "pixelRatio" (settings g) = None).
Proof.
  intros g known. subst known g.
  unfold setupFog, settings.
  cbn [constructor perfManager PerformanceManager.getSettings
       PerformanceManager.constructor PerformanceManager.settings
       PerformanceManager.performanceClass].
  set (found := PerformanceManager.detectPerformance b "AVERAGE").
  split; [ | split].
  - intros Hknown.
    destruct (known_settings_fog found (PerformanceManager.devicePixelRatio b)
                [] Hknown)
      as (Hfog & (near & far & Hnear & Hfar & Horder) & Hratio).
    split; [ | exact Hratio].
    exists near, far. rewrite Hfog, Hnear, Hfar. now split.
  - intros ->. reflexivity.
  - intros Hnot. rewrite applySettings_unknown by exact Hnot. now split.
Qed.

Lemma fog_and_pixel_ratio_follow_class_witness :
  JS.get "pixelRatio" (settings (constructor desktop halves))
  = Some (JS.Num (Rmin 1 2)).
Proof.
  apply (fog_and_pixel_ratio_follow_class desktop halves).
  apply (heuristic_cases desktop "AVERAGE"). left. reflexivity.
Defined.

End SettingsProperties.
